(** * Lifelog markdown exporter (examples/save_all_markdown.py)

    A shallow embedding of [export_data] and [main], together with the
    parts of the Python runtime they call: dictionaries read with [.get],
    truthiness, [datetime] arithmetic on proleptic Gregorian ordinals,
    [datetime.astimezone], pytz's transition-table time zones,
    [strftime], a directory of UTF-8 text files and the console. *)

From Stdlib Require Import ZArith Lia String Ascii List.
From stdpp Require Import gmap strings list fin_maps pretty list_numbers.

Local Open Scope string_scope.
Local Open Scope Z_scope.
Set Warnings "-register-all".

(** ** Python values held by a lifelog *)

(** The values a decoded JSON document can hold.  JSON numbers are kept
    as integers; a dictionary value keeps its items in order. *)
Inductive pyval : Type :=
| PNone
| PBool (b : bool)
| PInt (n : Z)
| PStr (s : string)
| PList (l : list pyval)
| PDict (l : list (string * pyval)).

(** [bool(v)]: what [if v:] tests. *)
Definition truthy (v : pyval) : bool :=
  match v with
  | PNone => false
  | PBool b => b
  | PInt n => negb (n =? 0)
  | PStr s => negb (String.eqb s "")
  | PList l => match l with [] => false | _ => true end
  | PDict l => match l with [] => false | _ => true end
  end.

(** A lifelog is a [dict] with string keys. *)
Abbreviation lifelog := (gmap string pyval).

(** [d.get(key)] returns [None] for a missing key. *)
Definition dict_get (d : lifelog) (key : string) : pyval :=
  default PNone (d !! key).

(** [d.get(key, dflt)]. *)
Definition dict_get_default (d : lifelog) (key : string) (dflt : pyval) : pyval :=
  default dflt (d !! key).

(** ** Text *)

(** A [str] is kept as the bytes of its UTF-8 form.  A [str] may hold
    lone surrogates (the code points U+D800 to U+DFFF, which a JSON
    document can spell as [\udXXX]); UTF-8 has no form for them, and
    they are kept as the three bytes [ED A0..BF 80..BF] that its scheme
    would give them. *)

(** The byte [a] followed by the byte [b] starts a surrogate. *)
Definition surrogate_start (a b : ascii) : bool :=
  ((nat_of_ascii a =? 237) && (160 <=? nat_of_ascii b))%nat.

(** [s.encode("utf-8")] succeeds: [s] holds no surrogate. *)
Fixpoint encodable (s : string) : bool :=
  match s with
  | EmptyString => true
  | String a rest =>
      match rest with
      | String b _ => negb (surrogate_start a b)
      | EmptyString => true
      end && encodable rest
  end.

(** [str(v)] can be encoded: a [str] is taken as it is, the text of
    every other value is built with [repr], which escapes surrogates. *)
Definition printable (v : pyval) : bool :=
  match v with
  | PStr s => encodable s
  | _ => true
  end.

(** ** Exceptions *)

Inductive exn : Type :=
| TypeError
| ValueError
| OverflowError
| IndexError
| FileNotFoundError
| UnicodeEncodeError.

(** ** The proleptic Gregorian calendar of [datetime] *)

Module Calendar.

Definition MAXORDINAL : Z := 3652059.

Definition is_leap (year : Z) : bool :=
  (year mod 4 =? 0) && (negb (year mod 100 =? 0) || (year mod 400 =? 0)).

Definition days_before_year (year : Z) : Z :=
  let y := year - 1 in
  y * 365 + y / 4 - y / 100 + y / 400.

(** [_DAYS_IN_MONTH], with the placeholder at index 0. *)
Definition DAYS_IN_MONTH (month : Z) : Z :=
  match month with
  | 1 => 31 | 2 => 28 | 3 => 31 | 4 => 30 | 5 => 31 | 6 => 30
  | 7 => 31 | 8 => 31 | 9 => 30 | 10 => 31 | 11 => 30 | 12 => 31
  | _ => -1
  end.

(** [_DAYS_BEFORE_MONTH], with the placeholder at index 0. *)
Definition DAYS_BEFORE_MONTH (month : Z) : Z :=
  match month with
  | 1 => 0 | 2 => 31 | 3 => 59 | 4 => 90 | 5 => 120 | 6 => 151
  | 7 => 181 | 8 => 212 | 9 => 243 | 10 => 273 | 11 => 304 | 12 => 334
  | _ => -1
  end.

Definition days_in_month (year month : Z) : Z :=
  if (month =? 2) && is_leap year then 29 else DAYS_IN_MONTH month.

Definition days_before_month (year month : Z) : Z :=
  DAYS_BEFORE_MONTH month + (if (2 <? month) && is_leap year then 1 else 0).

Definition ymd2ord (year month day : Z) : Z :=
  days_before_year year + days_before_month year month + day.

Definition DI400Y : Z := 146097.
Definition DI100Y : Z := 36524.
Definition DI4Y : Z := 1461.

Definition ord2ymd (n : Z) : Z * Z * Z :=
  let n := n - 1 in
  let n400 := n / DI400Y in
  let n := n mod DI400Y in
  let year := n400 * 400 + 1 in
  let n100 := n / DI100Y in
  let n := n mod DI100Y in
  let n4 := n / DI4Y in
  let n := n mod DI4Y in
  let n1 := n / 365 in
  let n := n mod 365 in
  let year := year + (n100 * 100 + n4 * 4 + n1) in
  if (n1 =? 4) || (n100 =? 4) then (year - 1, 12, 31)
  else
    let leapyear := (n1 =? 3) && (negb (n4 =? 24) || (n100 =? 3)) in
    let month := Z.shiftr (n + 50) 5 in
    let preceding :=
      DAYS_BEFORE_MONTH month + (if (2 <? month) && leapyear then 1 else 0) in
    if n <? preceding then
      let month := month - 1 in
      let preceding :=
        preceding
        - (DAYS_IN_MONTH month + (if (month =? 2) && leapyear then 1 else 0)) in
      (year, month, n - preceding + 1)
    else (year, month, n - preceding + 1).

End Calendar.

(** ** [datetime] and [timedelta] *)

(** A [timedelta] is kept as its total number of microseconds; the
    normalised attributes are read off it. *)
Definition US_PER_SECOND : Z := 1000000.
Definition US_PER_DAY : Z := 86400 * US_PER_SECOND.

Definition td_days (t : Z) : Z := t / US_PER_DAY.
Definition td_seconds (t : Z) : Z := (t / US_PER_SECOND) mod 86400.
Definition td_microseconds (t : Z) : Z := t mod US_PER_SECOND.

(** A [datetime]: the civil fields and, for an aware value, the UTC
    offset of its [tzinfo] (a [timedelta]). *)
Record datetime : Type := mk_datetime {
  year : Z;
  month : Z;
  day : Z;
  hour : Z;
  minute : Z;
  second : Z;
  microsecond : Z;
  tzinfo : option Z
}.

Definition replace_tzinfo (dt : datetime) (tz : option Z) : datetime :=
  mk_datetime (year dt) (month dt) (day dt) (hour dt) (minute dt) (second dt)
              (microsecond dt) tz.

Definition toordinal (dt : datetime) : Z :=
  Calendar.ymd2ord (year dt) (month dt) (day dt).

(** [timedelta(self.toordinal(), hours=..., minutes=..., seconds=...,
    microseconds=...)], the first step of [datetime.__add__]. *)
Definition to_delta (dt : datetime) : Z :=
  ((toordinal dt * 86400 + hour dt * 3600 + minute dt * 60 + second dt)
   * US_PER_SECOND) + microsecond dt.

(** The rest of [datetime.__add__]: rebuild a datetime from the summed
    delta, or raise [OverflowError] when the day leaves 1..MAXORDINAL. *)
Definition of_delta (delta : Z) (tz : option Z) : exn + datetime :=
  let hour := td_seconds delta / 3600 in
  let rem := td_seconds delta mod 3600 in
  let minute := rem / 60 in
  let second := rem mod 60 in
  if (0 <? td_days delta) && (td_days delta <=? Calendar.MAXORDINAL) then
    let '(y, m, d) := Calendar.ord2ymd (td_days delta) in
    inr (mk_datetime y m d hour minute second (td_microseconds delta) tz)
  else inl OverflowError.

Definition datetime_add (dt : datetime) (other : Z) : exn + datetime :=
  of_delta (to_delta dt + other) (tzinfo dt).

Definition datetime_sub (dt : datetime) (other : Z) : exn + datetime :=
  datetime_add dt (- other).

(** ** pytz time zones *)

(** A pytz [DstTzInfo]: the sorted [_utc_transition_times] (each naive
    UTC datetime kept as its [to_delta]) and, in parallel, the
    [utcoffset] of every [_transition_info] entry. *)
Record DstTzInfo : Type := mk_tz {
  utc_transition_times : list Z;
  transition_info : list Z
}.

(** [bisect.bisect_right a x] on a sorted list: the number of leading
    entries that are at most [x]. *)
Fixpoint bisect_right (a : list Z) (x : Z) : nat :=
  match a with
  | [] => O
  | t :: a' => if t <=? x then S (bisect_right a' x) else O
  end.

(** [DstTzInfo.fromutc]: pick the transition in force and add its offset. *)
Definition fromutc (tz : DstTzInfo) (dt : datetime) : exn + datetime :=
  let idx := Nat.max 0 (bisect_right (utc_transition_times tz) (to_delta dt) - 1) in
  match transition_info tz !! idx with
  | None => inl IndexError
  | Some inf =>
      match datetime_add (replace_tzinfo dt None) inf with
      | inl e => inl e
      | inr r => inr (replace_tzinfo r (Some inf))
      end
  end.

(** [datetime.astimezone(tz)].  A naive value is read in the system's
    local zone: [local] finds the offset of that zone for the
    wall-clock time, or raises when the C library cannot tell.  The
    zone of the value is never the object [tz] itself here, so the
    shortcut for identical zones is left out. *)
Definition astimezone (local : datetime -> exn + Z) (dt : datetime) (tz : DstTzInfo)
  : exn + datetime :=
  let myoffset :=
    match tzinfo dt with
    | Some off => inr off
    | None => local dt
    end in
  match myoffset with
  | inl e => inl e
  | inr myoffset =>
      match datetime_sub dt myoffset with
      | inl e => inl e
      | inr utc => fromutc tz utc
      end
  end.

(** ** [strftime] *)

Fixpoint zeros (n : nat) : string :=
  match n with
  | O => ""
  | S n' => String "0" (zeros n')
  end.

(** [str.zfill]: pad on the left with zeros up to [width]. *)
Definition zfill (width : nat) (s : string) : string :=
  zeros (width - String.length s) +:+ s.

(** A [%0wd] conversion of a non-negative field. *)
Definition fmt_field (width : nat) (n : Z) : string :=
  zfill width (pretty n).

(** The [%Y] conversion.  The C library decides whether a year below
    1000 is padded to four digits: glibc prints [999], others [0999]. *)
Definition year_text (padded : bool) (y : Z) : string :=
  if padded then fmt_field 4 y else pretty y.

(** [dt.strftime("%Y-%m-%d-%H-%M-%S")]. *)
Definition strftime (padded : bool) (dt : datetime) : string :=
  year_text padded (year dt) +:+ "-" +:+ fmt_field 2 (month dt) +:+ "-" +:+
  fmt_field 2 (day dt) +:+ "-" +:+ fmt_field 2 (hour dt) +:+ "-" +:+
  fmt_field 2 (minute dt) +:+ "-" +:+ fmt_field 2 (second dt).

(** ** The world the script runs in *)

(** One [print] call, kept with its arguments rather than rendered. *)
Inductive line : Type :=
| LFetching                                     (* "Fetching all lifelogs from beginning to now..." *)
| LExporting (n : nat) (dir : string)           (* "Exporting {n} lifelogs to {dir} directory..." *)
| LFirstKeys (d : lifelog)                      (* "First lifelog keys:", list(d.keys()) *)
| LStructure (i : nat)                          (* "\nLifelog {i} structure:" *)
| LJson (d : lifelog)                           (* json.dumps(d, indent=2) *)
| LExported (i n : nat) (filename : string)     (* "[{i}/{n}] Exported: {filename}" *)
| LError (i n : nat) (ts : pyval) (e : exn)     (* "[{i}/{n}] Error processing timestamp '{ts}': {e}" *)
| LNoTimestamp (i n : nat) (filename : string)  (* "[{i}/{n}] No timestamp found, using current time: {filename}" *)
| LComplete.                                    (* "Export complete!" *)

(** The state the script reads and writes.
    - [lifelogs]: the list object bound to the name [lifelogs];
    - [export_dir]: the directory [export] of the working directory,
      [None] while it does not exist, else its regular files by name
      (a file system in which [export] is not a directory, or an entry
      of it is, is not represented, nor are permission or space limits);
    - [stdout]: the lines printed so far, on a console that encodes
      its text as UTF-8 and refuses what UTF-8 cannot encode (other
      console encodings are not represented);
    - [clock], [ticks]: the values successive [datetime.now()] calls
      return (naive local time) and how many calls were made;
    - [environ]: the process environment. *)
Record world : Type := mk_world {
  lifelogs : list lifelog;
  export_dir : option (gmap string string);
  stdout : list line;
  clock : nat -> datetime;
  ticks : nat;
  environ : gmap string string
}.

Definition set_lifelogs (l : list lifelog) (w : world) : world :=
  mk_world l (export_dir w) (stdout w) (clock w) (ticks w) (environ w).
Definition set_export_dir (d : option (gmap string string)) (w : world) : world :=
  mk_world (lifelogs w) d (stdout w) (clock w) (ticks w) (environ w).
Definition set_stdout (o : list line) (w : world) : world :=
  mk_world (lifelogs w) (export_dir w) o (clock w) (ticks w) (environ w).
Definition set_ticks (n : nat) (w : world) : world :=
  mk_world (lifelogs w) (export_dir w) (stdout w) (clock w) n (environ w).

(** How a call ends: it returns, an exception leaves it, or the model's
    loop bound ran out first. *)
Inductive outcome (A : Type) : Type :=
| Return (a : A)
| Raised (e : exn)
| OutOfFuel.
Arguments Return {A} a.
Arguments Raised {A} e.
Arguments OutOfFuel {A}.

(** Statements: state passing with exceptions. *)
Definition io (A : Type) : Type := world -> world * outcome A.

Definition io_ret {A} (a : A) : io A := fun w => (w, Return a).

Definition io_bind {A B} (m : io A) (k : A -> io B) : io B :=
  fun w =>
    match m w with
    | (w', Return a) => k a w'
    | (w', Raised e) => (w', Raised e)
    | (w', OutOfFuel) => (w', OutOfFuel)
    end.

Definition raise {A} (e : exn) : io A := fun w => (w, Raised e).

Definition lift {A} (r : exn + A) : io A :=
  match r with
  | inl e => raise e
  | inr a => io_ret a
  end.

(** [try: m  except Exception as e: h e]. *)
Definition try_except {A} (m : io A) (h : exn -> io A) : io A :=
  fun w =>
    match m w with
    | (w', Raised e) => h e w'
    | r => r
    end.

Declare Scope io_scope.
Delimit Scope io_scope with io.
Notation "x <- m ;; k" := (io_bind m (fun x => k))
  (at level 100, m at next level, k at level 200, right associativity) : io_scope.
Notation "m ;; k" := (io_bind m (fun _ => k))
  (at level 100, k at level 200, right associativity) : io_scope.
Local Open Scope io_scope.

(** The text of the line can be encoded.  The texts that come from
    the data as they are are the timestamp of an error line, the file
    names and the directory; indices and fixed words are ASCII, the
    message of an exception quotes its argument with [repr], and
    [json.dumps] and the [repr] of the keys escape what they must. *)
Definition line_encodable (l : line) : bool :=
  match l with
  | LExporting _ dir => encodable dir
  | LExported _ _ filename => encodable filename
  | LNoTimestamp _ _ filename => encodable filename
  | LError _ _ ts _ => printable ts
  | LFetching | LFirstKeys _ | LStructure _ | LJson _ | LComplete => true
  end.

(** [print(...)]: the line is written whole, or [UnicodeEncodeError]
    is raised and nothing is written. *)
Definition print (l : line) : io unit :=
  fun w =>
    if line_encodable l then (set_stdout (stdout w ++ [l]) w, Return tt)
    else (w, Raised UnicodeEncodeError).

(** [len(lifelogs)]. *)
Definition len_lifelogs : io nat :=
  fun w => (w, Return (length (lifelogs w))).

(** [datetime.datetime.now()]. *)
Definition datetime_now : io datetime :=
  fun w => (set_ticks (S (ticks w)) w, Return (clock w (ticks w))).

(** [os.getenv(name)]. *)
Definition getenv (name : string) : io (option string) :=
  fun w => (w, Return (environ w !! name)).

(** [export_dir.mkdir(exist_ok=True)]. *)
Definition mkdir_exist_ok : io unit :=
  fun w =>
    match export_dir w with
    | None => (set_export_dir (Some ∅) w, Return tt)
    | Some _ => (w, Return tt)
    end.

(** [open(export_dir / filename, "w", encoding="utf-8")]: the file is
    created, or emptied when it exists. *)
Definition open_w (filename : string) : io unit :=
  fun w =>
    match export_dir w with
    | None => (w, Raised FileNotFoundError)
    | Some files => (set_export_dir (Some (<[filename := ""]> files)) w, Return tt)
    end.

(** [f.write(v)] on the file opened as [filename] with
    [encoding="utf-8"]: text is appended to what the file holds;
    anything but a [str] is a [TypeError], and a [str] that UTF-8
    cannot encode is a [UnicodeEncodeError], the file staying as it
    was. *)
Definition f_write (filename : string) (v : pyval) : io unit :=
  fun w =>
    match v with
    | PStr s =>
        if encodable s then
          match export_dir w with
          | None => (w, Raised FileNotFoundError)
          | Some files =>
              (set_export_dir
                 (Some (<[filename := default "" (files !! filename) +:+ s]> files)) w,
               Return tt)
          end
        else (w, Raised UnicodeEncodeError)
    | _ => (w, Raised TypeError)
    end.

(** [for i, x in enumerate(lifelogs, 1): body i x].  The list iterator
    reads the live list at its next index and stops when the index is
    past the end; [fuel] bounds the number of rounds. *)
Fixpoint for_enumerate (fuel : nat) (idx : nat) (body : nat -> lifelog -> io unit)
  : io unit :=
  fun w =>
    match lifelogs w !! idx with
    | None => (w, Return tt)
    | Some x =>
        match fuel with
        | O => (w, OutOfFuel)
        | S fuel' =>
            match body (S idx) x w with
            | (w', Return _) => for_enumerate fuel' (S idx) body w'
            | (w', Raised e) => (w', Raised e)
            | (w', OutOfFuel) => (w', OutOfFuel)
            end
        end
    end.

(** [for i, x in enumerate(copy, 1): body i x] over a fresh list. *)
Fixpoint for_each_from (i : nat) (copy : list lifelog) (body : nat -> lifelog -> io unit)
  : io unit :=
  match copy with
  | [] => io_ret tt
  | x :: rest => body i x ;; for_each_from (S i) rest body
  end.

(** ** What the script takes from its platform *)

Class Platform : Type := {
  (** [datetime.datetime.fromisoformat] on a [str]. *)
  fromisoformat : string -> exn + datetime;
  (** [pytz.timezone("America/Chicago")]. *)
  chicago_tz : DstTzInfo;
  (** The UTC offset the system's local zone gives a naive datetime,
      or the exception raised when it cannot be found (for the first
      day of year 1, for instance). *)
  local_utcoffset : datetime -> exn + Z;
  (** Whether the C library's [%Y] pads a year below 1000. *)
  year_padded : bool;
  (** [_client.get_lifelogs(api_key, direction, limit)]. *)
  get_lifelogs : option string -> string -> option nat -> io (list lifelog)
}.

(** ** save_all_markdown.py *)

Section Exporter.
Context {P : Platform}.

(** [datetime.datetime.fromisoformat(v)]: a [TypeError] unless [v] is
    a [str]. *)
Definition py_fromisoformat (v : pyval) : exn + datetime :=
  match v with
  | PStr s => fromisoformat s
  | _ => inl TypeError
  end.

(** The debugging block that precedes the loop. *)
Definition print_structure : io unit :=
  fun w =>
    match lifelogs w with
    | [] => (w, Return tt)
    | first :: _ =>
        (print (LFirstKeys first) ;;
         for_each_from 1 (take 3 (lifelogs w))
           (fun i lifelog => print (LStructure i) ;; print (LJson lifelog))) w
    end.

(** The body of the export loop for the lifelog at 1-based index [i]. *)
Definition export_record (i : nat) (lifelog : lifelog) : io unit :=
  let timestamp_str := dict_get lifelog "startTime" in
  if truthy timestamp_str then
    try_except
      (start_time <- lift (py_fromisoformat timestamp_str) ;;
       start_time_chicago <- lift (astimezone local_utcoffset start_time chicago_tz) ;;
       let filename := strftime year_padded start_time_chicago +:+ ".md" in
       open_w filename ;;
       f_write filename (dict_get_default lifelog "markdown" (PStr "")) ;;
       n <- len_lifelogs ;;
       print (LExported i n filename))
      (fun e =>
         n <- len_lifelogs ;;
         print (LError i n timestamp_str e))
  else
    now <- datetime_now ;;
    now_chicago <- lift (astimezone local_utcoffset now chicago_tz) ;;
    let filename := strftime year_padded now_chicago +:+ "-" +:+ pretty i +:+ ".md" in
    open_w filename ;;
    f_write filename (dict_get_default lifelog "markdown" (PStr "")) ;;
    n <- len_lifelogs ;;
    print (LNoTimestamp i n filename).

(** [export_data(lifelogs)]; its argument is the list object held in
    the world. *)
Definition export_data : io unit :=
  mkdir_exist_ok ;;
  n <- len_lifelogs ;;
  print (LExporting n "export") ;;
  print_structure ;;
  (fun w => for_enumerate (length (lifelogs w)) 0 export_record w).

(** [main()].  The [.env] file was read into the environment when the
    module was loaded; the list fetched is bound to [lifelogs]. *)
Definition main : io unit :=
  print LFetching ;;
  api_key <- getenv "LIMITLESS_API_KEY" ;;
  fetched <- get_lifelogs api_key "asc" None ;;
  (fun w => (set_lifelogs fetched w, Return tt)) ;;
  export_data ;;
  print LComplete.

End Exporter.

(** ** A concrete platform *)

(** [datetime.fromisoformat] as the C module of Python 3.11 has it.
    The string is read as bytes, a read past its end giving the
    terminator 0.  Accepted are a date [YYYY-MM-DD], [YYYYMMDD],
    [YYYY-Www[-D]] or [YYYYWww[D]], then optionally one separator
    character, whatever it is, and a time [HH[:MM[:SS[.f+]]]], also
    without the colons or with a comma, followed by nothing, [Z], or
    an offset written like a time.  The general properties of the
    exporter are proved for every parser. *)
Module Iso.

(** The byte at index [i]; 0 past the end. *)
Definition byte_at (s : string) (i : nat) : nat :=
  match String.get i s with
  | Some c => nat_of_ascii c
  | None => O
  end.

Definition is_digit (c : nat) : bool := ((48 <=? c) && (c <=? 57))%nat.

(** [parse_digits]: [num] digits from index [p] on, added to [acc];
    the index after them and the number. *)
Fixpoint parse_digits (s : string) (p num : nat) (acc : Z) : option (nat * Z) :=
  match num with
  | O => Some (p, acc)
  | S num' =>
      let c := byte_at s p in
      if is_digit c
      then parse_digits s (S p) num' (acc * 10 + Z.of_nat (c - 48))
      else None
  end.

(** The index of the first byte from [p] on that is no digit. *)
Fixpoint skip_digits (fuel : nat) (s : string) (p : nat) : nat :=
  match fuel with
  | O => p
  | S fuel' => if is_digit (byte_at s p) then skip_digits fuel' s (S p) else p
  end.

(** The number of bytes of the character that starts with byte [c]. *)
Definition char_len (c : nat) : nat :=
  if (c <? 128)%nat then 1%nat
  else if (240 <=? c)%nat then 4%nat
  else if (224 <=? c)%nat then 3%nat
  else 2%nat.

(** The byte offsets of the characters of [s] from offset [off] on. *)
Fixpoint char_offsets (fuel : nat) (s : string) (off : nat) : list nat :=
  match fuel with
  | O => []
  | S fuel' =>
      if (off <? String.length s)%nat
      then off :: char_offsets fuel' s (off + char_len (byte_at s off))
      else []
  end.

Definition is_surrogate_at (s : string) (off : nat) : bool :=
  ((byte_at s off =? 237) && (160 <=? byte_at s (S off)))%nat.

(** The offset of the character of index [pos] when it is a surrogate. *)
Definition surrogate_char (s : string) (chars : list nat) (pos : nat) : option nat :=
  match chars !! pos with
  | Some off => if is_surrogate_at s off then Some off else None
  | None => None
  end.

(** [_sanitize_isoformat_str]: the first surrogate found at character
    7, 8 or 10, where a separator can stand, is replaced by [T]. *)
Definition sanitize (s : string) : string :=
  let chars := char_offsets (String.length s) s 0 in
  let put_T off :=
    substring 0 off s +:+ "T" +:+ substring (off + 3) (String.length s - (off + 3)) s in
  if (length chars <? 7)%nat then s
  else
    match surrogate_char s chars 7 with
    | Some off => put_T off
    | None =>
        match surrogate_char s chars 8 with
        | Some off => put_T off
        | None =>
            match surrogate_char s chars 10 with
            | Some off => put_T off
            | None => s
            end
        end
    end.

(** [_find_isoformat_datetime_separator]: where the date ends. *)
Definition find_isoformat_datetime_separator (s : string) : option nat :=
  let len := String.length s in
  if (len =? 7)%nat then Some 7%nat
  else if (byte_at s 4 =? 45)%nat then
    if (byte_at s 5 =? 87)%nat then
      if (len <? 8)%nat then None
      else if (8 <? len)%nat && (byte_at s 8 =? 45)%nat then
        if (len =? 9)%nat then None
        else if (10 <? len)%nat && is_digit (byte_at s 10) then Some 8%nat
        else Some 10%nat
      else Some 8%nat
    else Some 10%nat
  else if (byte_at s 4 =? 87)%nat then
    let idx := skip_digits len s 7 in
    if (idx <? 9)%nat then Some idx
    else if Nat.even idx then Some 7%nat
    else Some 8%nat
  else Some 8%nat.

(** [iso_to_ymd]: the date of day [d] of week [w] of ISO year [y]. *)
Definition iso_to_ymd (y w d : Z) : option (Z * Z * Z) :=
  let first_weekday := (Calendar.ymd2ord y 1 1 + 6) mod 7 in
  let week_53 :=
    (w =? 53) &&
    ((first_weekday =? 3) || ((first_weekday =? 2) && Calendar.is_leap y)) in
  if ((w <=? 0) || (53 <=? w)) && negb week_53 then None
  else if (d <=? 0) || (8 <=? d) then None
  else
    let first_day := Calendar.ymd2ord y 1 1 in
    let week1_monday :=
      first_day - first_weekday + (if 3 <? first_weekday then 7 else 0) in
    Some (Calendar.ord2ymd (week1_monday + (w - 1) * 7 + d - 1)).

(** [parse_isoformat_date] on the first [len] bytes. *)
Definition parse_isoformat_date (s : string) (len : nat) : option (Z * Z * Z) :=
  match parse_digits s 0 4 0 with
  | None => None
  | Some (p, y) =>
      let uses_separator := (byte_at s p =? 45)%nat in
      let p := if uses_separator then S p else p in
      if (byte_at s p =? 87)%nat then
        match parse_digits s (S p) 2 0 with
        | None => None
        | Some (p, w) =>
            if (p <? len)%nat then
              if uses_separator && negb (byte_at s p =? 45)%nat then None
              else
                match parse_digits s (if uses_separator then S p else p) 1 0 with
                | None => None
                | Some (_, d) => iso_to_ymd y w d
                end
            else iso_to_ymd y w 1
        end
      else
        match parse_digits s p 2 0 with
        | None => None
        | Some (p, m) =>
            if uses_separator && negb (byte_at s p =? 45)%nat then None
            else
              match parse_digits s (if uses_separator then S p else p) 2 0 with
              | None => None
              | Some (_, d) => Some (y, m, d)
              end
        end
  end.

(** How the loop over hours, minutes and seconds ends: with an error,
    at the end of the text ([rest] tells whether the last byte read
    was part of it), or before a fraction. *)
Inductive hms_result : Type :=
| HmsError
| HmsDone (vals : list Z) (rest : bool)
| HmsFraction (vals : list Z) (p : nat).

(** The loop of [parse_hh_mm_ss_ff], with [rounds] fields to go. *)
Fixpoint parse_hms (rounds : nat) (first has_separator : bool) (s : string)
    (p p_end : nat) (vals : list Z) : hms_result :=
  match rounds with
  | O => HmsFraction vals p
  | S rounds' =>
      match parse_digits s p 2 0 with
      | None => HmsError
      | Some (p, v) =>
          let vals := (vals ++ [v])%list in
          let c := byte_at s p in
          let p := S p in
          let has_separator := if first then (c =? 58)%nat else has_separator in
          if (p_end <=? p)%nat then HmsDone vals (negb (c =? 0)%nat)
          else if has_separator && (c =? 58)%nat then
            parse_hms rounds' false has_separator s p p_end vals
          else if ((c =? 46) || (c =? 44))%nat then HmsFraction vals p
          else if negb has_separator then
            parse_hms rounds' false has_separator s (p - 1) p_end vals
          else HmsError
      end
  end.

(** [parse_hh_mm_ss_ff] on the bytes from [p] to [p_end]: hour, minute,
    second and microsecond, and whether text is left over. *)
Definition parse_hh_mm_ss_ff (s : string) (p p_end : nat)
  : option (Z * Z * Z * Z * bool) :=
  let fields vals := (nth 0 vals 0, nth 1 vals 0, nth 2 vals 0) in
  match parse_hms 3 true true s p p_end [] with
  | HmsError => None
  | HmsDone vals rest => Some (fields vals, 0, rest)
  | HmsFraction vals p =>
      let len_remains := (p_end - p)%nat in
      let to_parse := if (6 <=? len_remains)%nat then 6%nat else len_remains in
      match parse_digits s p to_parse 0 with
      | None => None
      | Some (p, us) =>
          let us := us * 10 ^ Z.of_nat (6 - to_parse) in
          let p := skip_digits (String.length s) s p in
          Some (fields vals, us, negb (byte_at s p =? 0)%nat)
      end
  end.

(** The index of the first [Z], [+] or [-] from [tz] on, looked for
    up to [p_end]. *)
Fixpoint find_tz (fuel : nat) (s : string) (tz p_end : nat) : nat :=
  let c := byte_at s tz in
  if ((c =? 90) || (c =? 43) || (c =? 45))%nat then tz
  else if (S tz <? p_end)%nat then
    match fuel with
    | O => S tz
    | S fuel' => find_tz fuel' s (S tz) p_end
    end
  else S tz.

(** [parse_isoformat_time] on the bytes from [p] on: the time and,
    when one is given, the offset in microseconds.  An offset of no
    whole second is read as UTC. *)
Definition parse_isoformat_time (s : string) (p : nat)
  : option (Z * Z * Z * Z * option Z) :=
  let p_end := String.length s in
  let tz := find_tz p_end s p p_end in
  match parse_hh_mm_ss_ff s p tz with
  | None => None
  | Some (t, us, rest) =>
      if (tz =? p_end)%nat then
        if rest then None else Some (t, us, None)
      else if (byte_at s tz =? 90)%nat then
        if (byte_at s (S tz) =? 0)%nat then Some (t, us, Some 0) else None
      else
        let tzsign := if (byte_at s tz =? 45)%nat then -1 else 1 in
        match parse_hh_mm_ss_ff s (S tz) p_end with
        | None => None
        | Some (_, _, true) => None
        | Some (h, m, sec, tzus, false) =>
            let tzoffset := h * 3600 + m * 60 + sec in
            if tzoffset =? 0 then Some (t, us, Some 0)
            else Some (t, us, Some (tzsign * (tzoffset * US_PER_SECOND + tzus)))
        end
  end.

(** The range checks of the [datetime] and [timezone] constructors. *)
Definition check_fields (y m d hh mm ss us : Z) (tz : option Z) : bool :=
  (1 <=? y) && (y <=? 9999) && (1 <=? m) && (m <=? 12) &&
  (1 <=? d) && (d <=? Calendar.days_in_month y m) &&
  (0 <=? hh) && (hh <=? 23) && (0 <=? mm) && (mm <=? 59) &&
  (0 <=? ss) && (ss <=? 59) && (0 <=? us) && (us <=? 999999) &&
  match tz with
  | Some off => (- US_PER_DAY <? off) && (off <? US_PER_DAY)
  | None => true
  end.

Definition fromisoformat (date_string : string) : exn + datetime :=
  let s := sanitize date_string in
  let len := String.length s in
  if negb (encodable s) || (len <? 7)%nat then inl ValueError
  else
    match find_isoformat_datetime_separator s with
    | None => inl ValueError
    | Some separator_location =>
        match parse_isoformat_date s separator_location with
        | None => inl ValueError
        | Some (y, m, d) =>
            let time_components :=
              if (separator_location <? len)%nat then
                parse_isoformat_time s
                  (separator_location + char_len (byte_at s separator_location))
              else Some (0, 0, 0, 0, None) in
            match time_components with
            | None => inl ValueError
            | Some (hh, mm, ss, us, tz) =>
                if check_fields y m d hh mm ss us tz
                then inr (mk_datetime y m d hh mm ss us tz)
                else inl ValueError
            end
        end
    end.

End Iso.

(** The transitions of America/Chicago as pytz builds them from the zone
    file: the instant of each transition in seconds since 1970-01-01 UTC
    and the UTC offset in seconds that starts there. *)
Definition chicago_transitions : list (Z * Z) :=
  [
    (-2147483648, -21600); (-1633276800, -18000); (-1615136400, -21600);
    (-1601827200, -18000); (-1583686800, -21600); (-1563724800, -18000);
    (-1551632400, -21600); (-1538928000, -18000); (-1520182800, -21600);
    (-1504454400, -18000); (-1491757200, -21600); (-1473004800, -18000);
    (-1459702800, -21600); (-1441555200, -18000); (-1428253200, -21600);
    (-1410105600, -18000); (-1396803600, -21600); (-1378656000, -18000);
    (-1365354000, -21600); (-1347206400, -18000); (-1333904400, -21600);
    (-1315152000, -18000); (-1301850000, -21600); (-1283702400, -18000);
    (-1270400400, -21600); (-1252252800, -18000); (-1238950800, -21600);
    (-1220803200, -18000); (-1207501200, -21600); (-1189353600, -18000);
    (-1176051600, -21600); (-1157299200, -18000); (-1144602000, -21600);
    (-1125849600, -18000); (-1112547600, -21600); (-1094400000, -18000);
    (-1081098000, -21600); (-1067788800, -18000); (-1045414800, -21600);
    (-1031500800, -18000); (-1018198800, -21600); (-1000051200, -18000);
    (-986749200, -21600); (-967996800, -18000); (-955299600, -21600);
    (-936547200, -18000); (-923245200, -21600); (-905097600, -18000);
    (-891795600, -21600); (-880214400, -18000); (-769395600, -18000);
    (-765392400, -21600); (-747244800, -18000); (-733942800, -21600);
    (-715795200, -18000); (-702493200, -21600); (-684345600, -18000);
    (-671043600, -21600); (-652896000, -18000); (-639594000, -21600);
    (-620841600, -18000); (-608144400, -21600); (-589392000, -18000);
    (-576090000, -21600); (-557942400, -18000); (-544640400, -21600);
    (-526492800, -18000); (-513190800, -21600); (-495043200, -18000);
    (-481741200, -21600); (-463593600, -18000); (-447267600, -21600);
    (-431539200, -18000); (-415818000, -21600); (-400089600, -18000);
    (-384368400, -21600); (-368640000, -18000); (-352918800, -21600);
    (-337190400, -18000); (-321469200, -21600); (-305740800, -18000);
    (-289414800, -21600); (-273686400, -18000); (-257965200, -21600);
    (-242236800, -18000); (-226515600, -21600); (-210787200, -18000);
    (-195066000, -21600); (-179337600, -18000); (-163616400, -21600);
    (-147888000, -18000); (-131562000, -21600); (-116438400, -18000);
    (-100112400, -21600); (-84384000, -18000); (-68662800, -21600);
    (-52934400, -18000); (-37213200, -21600); (-21484800, -18000);
    (-5763600, -21600); (9964800, -18000); (25686000, -21600);
    (41414400, -18000); (57740400, -21600); (73468800, -18000);
    (89190000, -21600); (104918400, -18000); (120639600, -21600);
    (126691200, -18000); (152089200, -21600); (162374400, -18000);
    (183538800, -21600); (199267200, -18000); (215593200, -21600);
    (230716800, -18000); (247042800, -21600); (262771200, -18000);
    (278492400, -21600); (294220800, -18000); (309942000, -21600);
    (325670400, -18000); (341391600, -21600); (357120000, -18000);
    (372841200, -21600); (388569600, -18000); (404895600, -21600);
    (420019200, -18000); (436345200, -21600); (452073600, -18000);
    (467794800, -21600); (483523200, -18000); (499244400, -21600);
    (514972800, -18000); (530694000, -21600); (544608000, -18000);
    (562143600, -21600); (576057600, -18000); (594198000, -21600);
    (607507200, -18000); (625647600, -21600); (638956800, -18000);
    (657097200, -21600); (671011200, -18000); (688546800, -21600);
    (702460800, -18000); (719996400, -21600); (733910400, -18000);
    (752050800, -21600); (765360000, -18000); (783500400, -21600);
    (796809600, -18000); (814950000, -21600); (828864000, -18000);
    (846399600, -21600); (860313600, -18000); (877849200, -21600);
    (891763200, -18000); (909298800, -21600); (923212800, -18000);
    (941353200, -21600); (954662400, -18000); (972802800, -21600);
    (986112000, -18000); (1004252400, -21600); (1018166400, -18000);
    (1035702000, -21600); (1049616000, -18000); (1067151600, -21600);
    (1081065600, -18000); (1099206000, -21600); (1112515200, -18000);
    (1130655600, -21600); (1143964800, -18000); (1162105200, -21600);
    (1173600000, -18000); (1194159600, -21600); (1205049600, -18000);
    (1225609200, -21600); (1236499200, -18000); (1257058800, -21600);
    (1268553600, -18000); (1289113200, -21600); (1300003200, -18000);
    (1320562800, -21600); (1331452800, -18000); (1352012400, -21600);
    (1362902400, -18000); (1383462000, -21600); (1394352000, -18000);
    (1414911600, -21600); (1425801600, -18000); (1446361200, -21600);
    (1457856000, -18000); (1478415600, -21600); (1489305600, -18000);
    (1509865200, -21600); (1520755200, -18000); (1541314800, -21600);
    (1552204800, -18000); (1572764400, -21600); (1583654400, -18000);
    (1604214000, -21600); (1615708800, -18000); (1636268400, -21600);
    (1647158400, -18000); (1667718000, -21600); (1678608000, -18000);
    (1699167600, -21600); (1710057600, -18000); (1730617200, -21600);
    (1741507200, -18000); (1762066800, -21600); (1772956800, -18000);
    (1793516400, -21600); (1805011200, -18000); (1825570800, -21600);
    (1836460800, -18000); (1857020400, -21600); (1867910400, -18000);
    (1888470000, -21600); (1899360000, -18000); (1919919600, -21600);
    (1930809600, -18000); (1951369200, -21600); (1962864000, -18000);
    (1983423600, -21600); (1994313600, -18000); (2014873200, -21600);
    (2025763200, -18000); (2046322800, -21600); (2057212800, -18000);
    (2077772400, -21600); (2088662400, -18000); (2109222000, -21600);
    (2120112000, -18000); (2140671600, -21600)
  ].

(** Seconds since 1970-01-01 as the [to_delta] of the naive UTC datetime. *)
Definition of_unix (t : Z) : Z := (719163 * 86400 + t) * US_PER_SECOND.

(** [pytz.timezone("America/Chicago")]: local mean time, rounded to the
    minute, from [datetime.min] on, then the table. *)
Definition America_Chicago : DstTzInfo :=
  mk_tz (US_PER_DAY :: map (fun p => of_unix (fst p)) chicago_transitions)
        (-21060 * US_PER_SECOND
           :: map (fun p => snd p * US_PER_SECOND) chicago_transitions).

(** A platform for running the script on given data: the parser and the
    zone above, a Linux machine set to UTC, and a record source that
    answers every call with the list [served].  On such a machine the
    local zone of a naive datetime is found by looking one day back as
    well, which fails with [ValueError] on the first day of year 1,
    and glibc leaves a year below 1000 unpadded. *)
Definition test_platform (served : list lifelog) : Platform :=
  {| fromisoformat := Iso.fromisoformat;
     chicago_tz := America_Chicago;
     local_utcoffset :=
       fun dt => if toordinal dt <=? 1 then inl ValueError else inr 0;
     year_padded := false;
     get_lifelogs := fun _ _ _ => io_ret served |}.

(** A world with nothing on disk and nothing printed, whose clock reads
    [now] the first time and one second more on each later call. *)
Definition fresh_world (l : list lifelog) (now : datetime) : world :=
  mk_world l None [] 
    (fun k => mk_datetime (year now) (month now) (day now) (hour now)
                (minute now) (second now + Z.of_nat k) (microsecond now) None)
    O ∅.

(** The same world once the [export] directory exists, empty. *)
Definition ready_world (l : list lifelog) (now : datetime) : world :=
  set_export_dir (Some ∅) (fresh_world l now).

(** The lifelogs of the scenarios. *)
Definition scenario_A : lifelog :=
  {[ "startTime" := PStr "2025-03-18T15:41:44-05:00"; "markdown" := PStr "Hello" ]}.
Definition no_time : lifelog := {[ "markdown" := PStr "No time" ]}.
Definition not_a_date : lifelog :=
  {[ "startTime" := PStr "not-a-date"; "markdown" := PStr "Lost" ]}.

(** 2025-03-18 20:00:00 on the system clock. *)
Definition eight_pm : datetime := mk_datetime 2025 3 18 20 0 0 0 None.

(** The file [path] as seen from the working directory. *)
Definition read_file (w : world) (path : string) : option string :=
  match export_dir w with
  | Some files =>
      if String.prefix "export/" path
      then files !! substring 7 (String.length path - 7) path
      else None
  | None => None
  end.

(** ** Notions used to state the properties *)

(** [f] holds on every integer of [lo, lo + 2^depth). *)
Fixpoint forall_range (depth : nat) (lo : Z) (f : Z -> bool) : bool :=
  match depth with
  | O => f lo
  | S d => forall_range d lo f && forall_range d (lo + 2 ^ Z.of_nat d) f
  end.

(** A month and a day of that month. *)
Definition valid_date (y m d : Z) : bool :=
  (1 <=? m) && (m <=? 12) && (1 <=? d) && (d <=? Calendar.days_in_month y m).

(** The fields of a [datetime] object are always in these ranges. *)
Definition valid_datetime (dt : datetime) : Prop :=
  1 <= year dt <= 9999 /\
  valid_date (year dt) (month dt) (day dt) = true /\
  0 <= hour dt <= 23 /\ 0 <= minute dt <= 59 /\ 0 <= second dt <= 59 /\
  0 <= microsecond dt <= 999999.

(** The month and day part of [ord2ymd]: from the 0-based day [n] of a
    year, leap or not, to the month and the day of the month. *)
Definition month_day (leapyear : bool) (n : Z) : Z * Z :=
  let month := Z.shiftr (n + 50) 5 in
  let preceding :=
    Calendar.DAYS_BEFORE_MONTH month + (if (2 <? month) && leapyear then 1 else 0) in
  if n <? preceding then
    let month := month - 1 in
    let preceding :=
      preceding
      - (Calendar.DAYS_IN_MONTH month + (if (month =? 2) && leapyear then 1 else 0)) in
    (month, n - preceding + 1)
  else (month, n - preceding + 1).

(** The check run over the days 0 to 364 of a year: the month and day
    found are a date of the year, and the days before it count up to
    the day. *)
Definition month_day_check (leapyear : bool) (n : Z) : bool :=
  (365 <=? n) ||
  (let '(m, d) := month_day leapyear n in
   (1 <=? m) && (m <=? 12) && (1 <=? d) &&
   (d <=? Calendar.DAYS_IN_MONTH m + (if (m =? 2) && leapyear then 1 else 0)) &&
   (Calendar.DAYS_BEFORE_MONTH m + (if (2 <? m) && leapyear then 1 else 0) + d
    =? n + 1)).

(** The decimal digit [d] as a character. *)
Definition digit_char (d : Z) : ascii := ascii_of_nat (48 + Z.to_nat d).

(** [n] written on exactly [w] decimal digits, zero-padded. *)
Fixpoint fixed_digits (w : nat) (n : Z) : string :=
  match w with
  | O => ""
  | S w' => String (digit_char ((n / 10 ^ Z.of_nat w') mod 10)) (fixed_digits w' n)
  end.

(** The fields [MM-DD-HH-MM-SS] of a stamp, and the part of the stamp
    that follows the year. *)
Definition clock_digits (c : datetime) : string :=
  fixed_digits 2 (month c) +:+ "-" +:+
  fixed_digits 2 (day c) +:+ "-" +:+ fixed_digits 2 (hour c) +:+ "-" +:+
  fixed_digits 2 (minute c) +:+ "-" +:+ fixed_digits 2 (second c).

Definition clock_part (c : datetime) : string := "-" +:+ clock_digits c.

(** The stamp [YYYY-MM-DD-HH-MM-SS] of a civil time. *)
Definition stamp (c : datetime) : string :=
  fixed_digits 4 (year c) +:+ clock_part c.

(** Every character of [s] is a decimal digit. *)
Fixpoint digits_only (s : string) : bool :=
  match s with
  | EmptyString => true
  | String a rest =>
      ((48 <=? nat_of_ascii a) && (nat_of_ascii a <=? 57))%nat && digits_only rest
  end.

(** Every character of [s] is an ASCII character. *)
Fixpoint ascii_only (s : string) : bool :=
  match s with
  | EmptyString => true
  | String a rest => (nat_of_ascii a <? 128)%nat && ascii_only rest
  end.

(** Below [10 ^ w], the [%0wd] conversion is the [w]-digit rendering. *)
Definition fmt_check (w : nat) (n : Z) : bool :=
  (10 ^ Z.of_nat w <=? n) || String.eqb (fmt_field w n) (fixed_digits w n).

(** The UTC offset a zone has in force at the UTC instant [u]. *)
Definition zone_offset (tz : DstTzInfo) (u : Z) : option Z :=
  transition_info tz !! (bisect_right (utc_transition_times tz) u - 1)%nat.


(** The text [f.write] receives for a lifelog: its [markdown] entry
    when that is a [str], the empty string when there is none. *)
Definition markdown_text (d : lifelog) : option string :=
  match d !! "markdown" with
  | None => Some ""
  | Some (PStr s) => Some s
  | Some _ => None
  end.

(** What [f.write(lifelog.get("markdown", ""))] comes to: the text
    written, or the exception raised for a value that is no [str] or
    for text that cannot be encoded. *)
Definition write_outcome (d : lifelog) : exn + string :=
  match markdown_text d with
  | Some t => if encodable t then inr t else inl UnicodeEncodeError
  | None => inl TypeError
  end.

Section Summaries.
Context {P : Platform}.

(** The UTC offset of a datetime: its own, or for a naive value the
    one found for the local zone. *)
Definition utcoffset_of (dt : datetime) : exn + Z :=
  match tzinfo dt with
  | Some off => inr off
  | None => local_utcoffset dt
  end.

(** The offset subtracted from a datetime to reach UTC (0 stands in
    when the local zone cannot be found, in which case the conversion
    raises). *)
Definition source_offset (dt : datetime) : Z :=
  match utcoffset_of dt with
  | inr off => off
  | inl _ => 0
  end.

(** The file name the timestamp branch derives for a lifelog. *)
Definition timestamp_filename (d : lifelog) : exn + string :=
  match py_fromisoformat (dict_get d "startTime") with
  | inl e => inl e
  | inr start_time =>
      match astimezone local_utcoffset start_time chicago_tz with
      | inl e => inl e
      | inr c => inr (strftime year_padded c +:+ ".md")
      end
  end.

(** The file name the fallback branch derives at index [i] when the
    clock reads [now]. *)
Definition fallback_filename (now : datetime) (i : nat) : exn + string :=
  match astimezone local_utcoffset now chicago_tz with
  | inl e => inl e
  | inr c => inr (strftime year_padded c +:+ "-" +:+ pretty i +:+ ".md")
  end.

(** The export loop run over a fixed list whose first element has
    0-based position [idx]. *)
Fixpoint run_from (idx : nat) (rs : list lifelog) : io unit :=
  fun w =>
    match rs with
    | [] => (w, Return tt)
    | r :: rest =>
        match export_record (S idx) r w with
        | (w', Return _) => run_from (S idx) rest w'
        | (w', Raised e) => (w', Raised e)
        | (w', OutOfFuel) => (w', OutOfFuel)
        end
    end.

(** No round of the export can raise: a start time that is a string
    can be printed, every lifelog that takes the fallback branch
    carries text that can be written, and the clock readings the run
    can make convert to Chicago time. *)
Definition exportable (w : world) : Prop :=
  (forall r, r ∈ lifelogs w -> truthy (dict_get r "startTime") = true ->
             printable (dict_get r "startTime") = true) /\
  (forall r, r ∈ lifelogs w -> truthy (dict_get r "startTime") = false ->
             exists t, write_outcome r = inr t) /\
  (forall t, (ticks w <= t < ticks w + length (lifelogs w))%nat ->
             exists c, astimezone local_utcoffset (clock w t) chicago_tz = inr c).


(** A round that ends by printing [l]: its summary when the line can
    be printed, [None] when [print] raises. *)
Definition printed (wr : option (string * string)) (l : line) (tk : nat)
  : option (option (string * string) * line * nat) :=
  if line_encodable l then Some (wr, l, tk) else None.

(** One round of the loop, summarised: the file it leaves behind
    (name and content), the line it prints and the number of clock
    readings it makes; [None] when an exception leaves the round. *)
Definition record_effect (i n : nat) (now : datetime) (r : lifelog)
  : option (option (string * string) * line * nat) :=
  let ts := dict_get r "startTime" in
  if truthy ts then
    match timestamp_filename r with
    | inl e => printed None (LError i n ts e) O
    | inr f =>
        match write_outcome r with
        | inr t => printed (Some (f, t)) (LExported i n f) O
        | inl e => printed (Some (f, "")) (LError i n ts e) O
        end
    end
  else
    match fallback_filename now i, write_outcome r with
    | inr f, inr t => printed (Some (f, t)) (LNoTimestamp i n f) 1%nat
    | _, _ => None
    end.

(** The rounds over a list, summarised in order, when the first
    element has 0-based position [idx] and [tick] clock readings were
    made before; [None] when an exception leaves some round. *)
Fixpoint effects (clk : nat -> datetime) (n idx tick : nat) (rs : list lifelog)
  : option (list (option (string * string) * line * nat)) :=
  match rs with
  | [] => Some []
  | r :: rest =>
      match record_effect (S idx) n (clk tick) r with
      | None => None
      | Some (wr, l, tk) =>
          match effects clk n (S idx) (tick + tk) rest with
          | None => None
          | Some effs => Some ((wr, l, tk) :: effs)
          end
      end
  end.

End Summaries.

(** Writing a file into a directory, when there is one to write. *)
Definition write_file (files : gmap string string) (wr : option (string * string))
  : gmap string string :=
  match wr with
  | Some (f, t) => <[f := t]> files
  | None => files
  end.

(** The file, the line and the clock readings of a summarised round. *)
Definition effect_write (e : option (string * string) * line * nat) := fst (fst e).
Definition effect_line (e : option (string * string) * line * nat) := snd (fst e).
Definition effect_ticks (e : option (string * string) * line * nat) := snd e.

(** The names of the files a list of writes leaves behind. *)
Definition written_names (wrs : list (option (string * string))) : list string :=
  omap (option_map fst) wrs.

(** The lines of the debugging block. *)
Fixpoint structure_lines (i : nat) (copy : list lifelog) : list line :=
  match copy with
  | [] => []
  | x :: rest => LStructure i :: LJson x :: structure_lines (S i) rest
  end.

(** Everything [export_data] prints before its loop. *)
Definition header_lines (l : list lifelog) : list line :=
  LExporting (length l) "export" ::
  match l with
  | [] => []
  | first :: _ => LFirstKeys first :: structure_lines 1 (take 3 l)
  end.

(** ** Further notions and data *)

(** The number of lifelogs of a list that take the fallback branch. *)
Fixpoint fallback_count (rs : list lifelog) : nat :=
  match rs with
  | [] => O
  | r :: rest =>
      ((if truthy (dict_get r "startTime") then 0 else 1) + fallback_count rest)%nat
  end.

(** The directory [files'] still has every file of [files], and those
    whose name does not end in [.md] with the content they had. *)
Definition keeps_files (files files' : gmap string string) : Prop :=
  dom files ⊆ dom files' /\
  forall f, (forall s, f <> s +:+ ".md") -> files' !! f = files !! f.

(** The second of civil time a [datetime] lies in. *)
Definition civil_second (c : datetime) : Z := to_delta c / US_PER_SECOND.

(** A platform whose record source fails with [e]. *)
Definition offline_platform (e : exn) : Platform :=
  {| fromisoformat := Iso.fromisoformat;
     chicago_tz := America_Chicago;
     local_utcoffset :=
       fun dt => if toordinal dt <=? 1 then inl ValueError else inr 0;
     year_padded := false;
     get_lifelogs := fun _ _ _ => raise e |}.

(** The lone surrogate U+D83D, the first half of many emoji, and a
    lifelog that has it for its start time. *)
Definition lone_surrogate : string :=
  String (ascii_of_nat 237) (String (ascii_of_nat 160) (String (ascii_of_nat 189) "")).

(** A start time whose separator between date and time is that
    surrogate, which the parser accepts, on a lifelog whose [markdown]
    is JSON [null]. *)
Definition surrogate_separator : lifelog :=
  {[ "startTime" := PStr ("2025-03-18" +:+ lone_surrogate +:+ "15:41:44-05:00");
     "markdown" := PNone ]}.


Definition no_time_no_text : lifelog := {[ "markdown" := PNone ]}.

(** The instant of scenario A written with the offset of UTC. *)
Definition scenario_A_utc : lifelog :=
  {[ "startTime" := PStr "2025-03-18T20:41:44+00:00"; "markdown" := PStr "Again" ]}.

(** A lifelog whose [startTime] is JSON [null]. *)
Definition null_time : lifelog :=
  {[ "startTime" := PNone; "markdown" := PStr "Null" ]}.

(** Half past one in the night of 2025-11-02, before and after Chicago
    set its clocks back from two o'clock to one. *)
Definition before_fold : lifelog :=
  {[ "startTime" := PStr "2025-11-02T01:30:00-05:00"; "markdown" := PStr "CDT" ]}.
Definition after_fold : lifelog :=
  {[ "startTime" := PStr "2025-11-02T01:30:00-06:00"; "markdown" := PStr "CST" ]}.

(** * Properties *)

(** ** The calendar *)

Lemma is_leap_spec y :
  Calendar.is_leap y = true <->
  y mod 4 = 0 /\ (y mod 100 <> 0 \/ y mod 400 = 0).
Proof.
  unfold Calendar.is_leap.
  rewrite andb_true_iff, orb_true_iff, negb_true_iff, !Z.eqb_eq, Z.eqb_neq.
  reflexivity.
Qed.

(** The year part of [ord2ymd]: the quotients by 400, 100, 4 and 1
    years of the day number. *)
Lemma year_split n0 :
  let n400 := n0 / 146097 in
  let r1 := n0 mod 146097 in
  let n100 := r1 / 36524 in
  let r2 := r1 mod 36524 in
  let n4 := r2 / 1461 in
  let r3 := r2 mod 1461 in
  let n1 := r3 / 365 in
  let r4 := r3 mod 365 in
  n0 = 146097 * n400 + 36524 * n100 + 1461 * n4 + 365 * n1 + r4 /\
  0 <= n100 <= 4 /\ 0 <= n4 <= 24 /\ 0 <= n1 <= 4 /\ 0 <= r4 < 365 /\
  (n100 = 4 -> n4 = 0 /\ n1 = 0 /\ r4 = 0) /\
  (n4 = 24 -> n100 = 4 \/ n1 <= 3) /\
  (n1 = 4 -> r4 = 0 /\ n4 <= 23).
Proof.
  cbv zeta.
  pose proof (Z.div_mod n0 146097 ltac:(lia)).
  pose proof (Z.mod_pos_bound n0 146097 ltac:(lia)).
  pose proof (Z.div_mod (n0 mod 146097) 36524 ltac:(lia)).
  pose proof (Z.mod_pos_bound (n0 mod 146097) 36524 ltac:(lia)).
  pose proof (Z.div_mod ((n0 mod 146097) mod 36524) 1461 ltac:(lia)).
  pose proof (Z.mod_pos_bound ((n0 mod 146097) mod 36524) 1461 ltac:(lia)).
  pose proof (Z.div_mod (((n0 mod 146097) mod 36524) mod 1461) 365 ltac:(lia)).
  pose proof (Z.mod_pos_bound (((n0 mod 146097) mod 36524) mod 1461) 365 ltac:(lia)).
  generalize dependent (n0 / 146097). generalize dependent (n0 mod 146097).
  intros r1 Hr1 n400.
  generalize dependent (r1 / 36524). generalize dependent (r1 mod 36524).
  intros r2 Hr2 n100.
  generalize dependent (r2 / 1461). generalize dependent (r2 mod 1461).
  intros r3 Hr3 n4.
  generalize dependent (r3 / 365). generalize dependent (r3 mod 365).
  intros r4 Hr4 n1. intros. lia.
Qed.

Lemma days_before_year_split n400 n100 n4 n1 :
  0 <= n100 <= 3 -> 0 <= n4 <= 24 -> 0 <= n1 <= 3 ->
  Calendar.days_before_year (400 * n400 + 100 * n100 + 4 * n4 + n1 + 1)
  = 146097 * n400 + 36524 * n100 + 1461 * n4 + 365 * n1.
Proof.
  intros. unfold Calendar.days_before_year. cbv zeta.
  Z.div_mod_to_equations. lia.
Qed.

Lemma is_leap_split n400 n100 n4 n1 :
  0 <= n100 <= 3 -> 0 <= n4 <= 24 -> 0 <= n1 <= 3 ->
  Calendar.is_leap (400 * n400 + 100 * n100 + 4 * n4 + n1 + 1)
  = (n1 =? 3) && (negb (n4 =? 24) || (n100 =? 3)).
Proof.
  intros. apply eq_true_iff_eq. rewrite is_leap_spec.
  rewrite andb_true_iff, orb_true_iff, negb_true_iff, !Z.eqb_eq, Z.eqb_neq.
  Z.div_mod_to_equations. lia.
Qed.

Lemma forall_range_sound depth lo f :
  forall_range depth lo f = true ->
  forall x, lo <= x < lo + 2 ^ Z.of_nat depth -> f x = true.
Proof.
  revert lo. induction depth as [|d IH]; intros lo H x Hx.
  - simpl in *. replace x with lo by lia. exact H.
  - simpl in H. apply andb_prop in H as [H1 H2].
    rewrite Nat2Z.inj_succ, Z.pow_succ_r in Hx by lia.
    destruct (Z_lt_ge_dec x (lo + 2 ^ Z.of_nat d)).
    + apply (IH lo); [exact H1 | lia].
    + apply (IH (lo + 2 ^ Z.of_nat d)); [exact H2 | lia].
Qed.

Lemma month_days_checked :
  forall_range 9 0 (month_day_check true)
  && forall_range 9 0 (month_day_check false) = true.
Proof. vm_cast_no_check (eq_refl true). Qed.

(** The month and day found for a day of the year are a date of that
    year, and the days before that date count up to the day. *)
Lemma month_day_correct leapyear n m d :
  0 <= n < 365 ->
  month_day leapyear n = (m, d) ->
  1 <= m <= 12 /\
  1 <= d <= Calendar.DAYS_IN_MONTH m + (if (m =? 2) && leapyear then 1 else 0) /\
  Calendar.DAYS_BEFORE_MONTH m + (if (2 <? m) && leapyear then 1 else 0) + d = n + 1.
Proof.
  intros Hn Hmd. pose proof month_days_checked as H.
  apply andb_prop in H as [Ht Hf].
  assert (Hc : month_day_check leapyear n = true).
  { destruct leapyear;
      [apply (forall_range_sound 9 0 _ Ht) | apply (forall_range_sound 9 0 _ Hf)];
      simpl; lia. }
  unfold month_day_check in Hc. rewrite Hmd in Hc.
  apply orb_prop in Hc as [Hc|Hc]; [apply Z.leb_le in Hc; lia|].
  repeat (apply andb_prop in Hc as [Hc ?]).
  repeat match goal with
         | H : (_ <=? _) = true |- _ => apply Z.leb_le in H
         | H : (_ =? _) = true |- _ => apply Z.eqb_eq in H
         end.
  lia.
Qed.

Lemma ord2ymd_eq n :
  Calendar.ord2ymd n =
  let n0 := n - 1 in
  let n400 := n0 / 146097 in
  let r1 := n0 mod 146097 in
  let n100 := r1 / 36524 in
  let r2 := r1 mod 36524 in
  let n4 := r2 / 1461 in
  let r3 := r2 mod 1461 in
  let n1 := r3 / 365 in
  let r4 := r3 mod 365 in
  let year := n400 * 400 + 1 + (n100 * 100 + n4 * 4 + n1) in
  if (n1 =? 4) || (n100 =? 4) then (year - 1, 12, 31)
  else
    let md := month_day ((n1 =? 3) && (negb (n4 =? 24) || (n100 =? 3))) r4 in
    (year, fst md, snd md).
Proof.
  unfold Calendar.ord2ymd, month_day, Calendar.DI400Y, Calendar.DI100Y,
    Calendar.DI4Y. cbv zeta.
  destruct (_ || _); [reflexivity|].
  destruct (_ <? _); reflexivity.
Qed.

(** [ord2ymd] returns a valid date, and [ymd2ord] takes it back to the
    ordinal: the two conversions of [datetime] agree on every day. *)
Lemma ord2ymd_correct n y m d :
  Calendar.ord2ymd n = (y, m, d) ->
  Calendar.ymd2ord y m d = n /\ valid_date y m d = true /\
  (1 <= n <= Calendar.MAXORDINAL -> 1 <= y <= 9999).
Proof.
  rewrite ord2ymd_eq. cbv zeta.
  pose proof (year_split (n - 1)) as Hsplit. cbv zeta in Hsplit.
  generalize dependent ((n - 1) / 146097). intros n400.
  generalize dependent ((((n - 1) mod 146097) mod 36524) mod 1461 / 365).
  intros n1.
  generalize dependent ((((n - 1) mod 146097) mod 36524) mod 1461 mod 365).
  intros r4.
  generalize dependent (((n - 1) mod 146097) mod 36524 / 1461). intros n4.
  generalize dependent ((n - 1) mod 146097 / 36524). intros n100.
  intros (Hn & H100 & H4 & H1 & Hr4 & Hc100 & Hc24 & Hc1).
  unfold Calendar.MAXORDINAL.
  destruct ((n1 =? 4) || (n100 =? 4)) eqn:Hlast.
  - intros [= <- <- <-].
    assert (Hyear : exists a100 a4 a1,
               0 <= a100 <= 3 /\ 0 <= a4 <= 24 /\ (a4 <= 23 \/ a100 = 3) /\
               a1 = 3 /\
               n400 * 400 + 1 + (n100 * 100 + n4 * 4 + n1) - 1
               = 400 * n400 + 100 * a100 + 4 * a4 + a1 + 1 /\
               n = 146097 * n400 + 36524 * a100 + 1461 * a4 + 365 * a1 + 366).
    { apply orb_prop in Hlast as [H|H]; apply Z.eqb_eq in H.
      - destruct (Z.eq_dec n100 4) as [E|E].
        + exists 3, 24, 3. lia.
        + exists n100, n4, 3. lia.
      - exists 3, 24, 3. lia. }
    destruct Hyear as (a100 & a4 & a1 & Ha100 & Ha4 & Hleap & -> & -> & ->).
    unfold Calendar.ymd2ord, Calendar.days_before_month, valid_date,
      Calendar.days_in_month.
    rewrite days_before_year_split, is_leap_split by lia.
    replace (negb (a4 =? 24) || (a100 =? 3)) with true
      by (symmetry; apply orb_true_iff; rewrite negb_true_iff, Z.eqb_neq, Z.eqb_eq; lia).
    simpl. split; [lia|]. split; [reflexivity|]. lia.
  - apply orb_false_elim in Hlast as [Hn1 Hn100].
    apply Z.eqb_neq in Hn1, Hn100.
    destruct (month_day _ r4) as [m' d'] eqn:Hmd. simpl.
    intros [= <- <- <-].
    destruct (month_day_correct _ _ _ _ Hr4 Hmd) as (Hm & Hd & Hsum).
    replace (n400 * 400 + 1 + (n100 * 100 + n4 * 4 + n1))
      with (400 * n400 + 100 * n100 + 4 * n4 + n1 + 1) by lia.
    unfold Calendar.ymd2ord, Calendar.days_before_month, valid_date,
      Calendar.days_in_month.
    rewrite days_before_year_split, is_leap_split by lia.
    split; [lia|]. split.
    + destruct ((m' =? 2) && _) eqn:Hfeb.
      * apply andb_prop in Hfeb as [Hfeb _]. apply Z.eqb_eq in Hfeb. subst m'.
        simpl in Hd. rewrite !andb_true_iff, !Z.leb_le. lia.
      * rewrite !andb_true_iff, !Z.leb_le. lia.
    + lia.
Qed.

Lemma days_before_year_succ y :
  Calendar.days_before_year (y + 1)
  = Calendar.days_before_year y + (if Calendar.is_leap y then 366 else 365).
Proof.
  destruct (Calendar.is_leap y) eqn:Hleap.
  - apply is_leap_spec in Hleap. unfold Calendar.days_before_year. cbv zeta.
    Z.div_mod_to_equations. lia.
  - apply not_true_iff_false in Hleap. rewrite is_leap_spec in Hleap.
    unfold Calendar.days_before_year. cbv zeta.
    Z.div_mod_to_equations. lia.
Qed.

Lemma days_before_year_mono y y' :
  y <= y' -> Calendar.days_before_year y <= Calendar.days_before_year y'.
Proof.
  intros. unfold Calendar.days_before_year. cbv zeta.
  Z.div_mod_to_equations. lia.
Qed.

Lemma month_cases m :
  1 <= m <= 12 ->
  m = 1 \/ m = 2 \/ m = 3 \/ m = 4 \/ m = 5 \/ m = 6 \/ m = 7 \/
  m = 8 \/ m = 9 \/ m = 10 \/ m = 11 \/ m = 12.
Proof. lia. Qed.

Lemma valid_date_spec y m d :
  valid_date y m d = true <->
  1 <= m <= 12 /\ 1 <= d <= Calendar.days_in_month y m.
Proof.
  unfold valid_date. rewrite !andb_true_iff, !Z.leb_le. lia.
Qed.

(** The day of the year of a valid date lies within the year. *)
Lemma day_of_year_bounds y m d :
  valid_date y m d = true ->
  1 <= Calendar.days_before_month y m + d
    <= (if Calendar.is_leap y then 366 else 365).
Proof.
  rewrite valid_date_spec. intros [Hm Hd].
  unfold Calendar.days_before_month, Calendar.days_in_month in *.
  destruct (Calendar.is_leap y);
    destruct (month_cases m Hm) as [->|[->|[->|[->|[->|[->|[->|[->|[->|[->|[->| ->]]]]]]]]]]];
    simpl in *; lia.
Qed.

(** Within a year, two valid dates with the same day of the year are
    the same date. *)
Lemma day_of_year_inj y m d m' d' :
  valid_date y m d = true -> valid_date y m' d' = true ->
  Calendar.days_before_month y m + d = Calendar.days_before_month y m' + d' ->
  m = m' /\ d = d'.
Proof.
  rewrite !valid_date_spec. intros [Hm Hd] [Hm' Hd'].
  unfold Calendar.days_before_month, Calendar.days_in_month in *.
  destruct (Calendar.is_leap y);
    destruct (month_cases m Hm) as [->|[->|[->|[->|[->|[->|[->|[->|[->|[->|[->| ->]]]]]]]]]]];
    destruct (month_cases m' Hm') as [->|[->|[->|[->|[->|[->|[->|[->|[->|[->|[->| ->]]]]]]]]]]];
    simpl in *; lia.
Qed.

(** No two valid dates share an ordinal. *)
Lemma ymd2ord_inj y m d y' m' d' :
  valid_date y m d = true -> valid_date y' m' d' = true ->
  Calendar.ymd2ord y m d = Calendar.ymd2ord y' m' d' ->
  y = y' /\ m = m' /\ d = d'.
Proof.
  intros Hv Hv'. unfold Calendar.ymd2ord. intros Heq.
  pose proof (day_of_year_bounds _ _ _ Hv) as Hb.
  pose proof (day_of_year_bounds _ _ _ Hv') as Hb'.
  pose proof (days_before_year_succ y) as Hs.
  pose proof (days_before_year_succ y') as Hs'.
  assert (y = y').
  { destruct (Z.lt_trichotomy y y') as [Hlt|[Heq'|Hgt]]; [|exact Heq'|].
    - pose proof (days_before_year_mono (y + 1) y' ltac:(lia)).
      destruct (Calendar.is_leap y); lia.
    - pose proof (days_before_year_mono (y' + 1) y ltac:(lia)).
      destruct (Calendar.is_leap y'); lia. }
  subst y'. split; [reflexivity|].
  apply (day_of_year_inj y); [assumption..|lia].
Qed.


Lemma valid_date_bounds y m d :
  valid_date y m d = true -> 1 <= m <= 12 /\ 1 <= d <= 31.
Proof.
  unfold valid_date, Calendar.days_in_month. intros H.
  repeat (apply andb_prop in H as [H ?]).
  assert (Hm : 1 <= m <= 12) by lia. split; [exact Hm|].
  assert (m = 1 \/ m = 2 \/ m = 3 \/ m = 4 \/ m = 5 \/ m = 6 \/ m = 7 \/
          m = 8 \/ m = 9 \/ m = 10 \/ m = 11 \/ m = 12) as Hcases by lia.
  repeat (destruct Hcases as [->|Hcases]); try subst m;
    simpl in *; try destruct (Calendar.is_leap y); simpl in *; lia.
Qed.

(** ** [datetime] arithmetic *)

(** What [datetime.__add__] rebuilds is a valid datetime that denotes
    exactly the summed delta. *)
Lemma of_delta_correct delta tz dt :
  of_delta delta tz = inr dt ->
  to_delta dt = delta /\ valid_datetime dt /\ tzinfo dt = tz.
Proof.
  unfold of_delta. cbv zeta.
  destruct ((0 <? td_days delta) && (td_days delta <=? Calendar.MAXORDINAL))
    eqn:Hrange; [|discriminate].
  destruct (Calendar.ord2ymd (td_days delta)) as [[y m] d] eqn:Hord.
  intros [= <-].
  apply ord2ymd_correct in Hord as (Hback & Hvalid & Hyear).
  apply andb_prop in Hrange as [Hlo Hhi].
  unfold to_delta, toordinal, valid_datetime. simpl.
  rewrite Hback.
  unfold td_days, td_seconds, td_microseconds, US_PER_DAY, US_PER_SECOND in *.
  split; [|split; [|reflexivity]].
  - Z.div_mod_to_equations. lia.
  - split; [apply Hyear; lia|]. split; [exact Hvalid|].
    Z.div_mod_to_equations. lia.
Qed.

(** ** Strings and [strftime] *)

Lemma length_append (s t : string) :
  String.length (s +:+ t) = (String.length s + String.length t)%nat.
Proof. induction s as [|c s IH]; simpl; [reflexivity | now rewrite IH]. Qed.

Lemma app_inv_length (s1 s2 t1 t2 : string) :
  s1 +:+ t1 = s2 +:+ t2 -> String.length s1 = String.length s2 ->
  s1 = s2 /\ t1 = t2.
Proof.
  revert s2. induction s1 as [|c s1 IH]; intros [|c' s2]; simpl;
    intros Happ Hlen; try discriminate.
  - split; [reflexivity | exact Happ].
  - injection Happ as -> Happ. injection Hlen as Hlen.
    destruct (IH _ Happ Hlen) as [-> ->]. split; reflexivity.
Qed.

Lemma app_inv_tail (s1 s2 t : string) : s1 +:+ t = s2 +:+ t -> s1 = s2.
Proof.
  intros H. apply (app_inv_length s1 s2 t t H).
  apply (f_equal String.length) in H. rewrite !length_append in H. lia.
Qed.

Lemma length_fixed_digits w n : String.length (fixed_digits w n) = w.
Proof. induction w as [|w IH]; simpl; [reflexivity | now rewrite IH]. Qed.

Lemma fmt_checked :
  forall_range 7 0 (fmt_check 2) && forall_range 14 0 (fmt_check 4) = true.
Proof. vm_cast_no_check (eq_refl true). Qed.

Lemma fmt_field_2 n : 0 <= n <= 99 -> fmt_field 2 n = fixed_digits 2 n.
Proof.
  intros Hn. pose proof fmt_checked as H. apply andb_prop in H as [H _].
  pose proof (forall_range_sound 7 0 _ H n ltac:(simpl; lia)) as Hc.
  unfold fmt_check in Hc. apply orb_prop in Hc as [Hc|Hc].
  - apply Z.leb_le in Hc. simpl in Hc. lia.
  - now apply String.eqb_eq.
Qed.

Lemma fmt_field_4 n : 0 <= n <= 9999 -> fmt_field 4 n = fixed_digits 4 n.
Proof.
  intros Hn. pose proof fmt_checked as H. apply andb_prop in H as [_ H].
  pose proof (forall_range_sound 14 0 _ H n ltac:(simpl; lia)) as Hc.
  unfold fmt_check in Hc. apply orb_prop in Hc as [Hc|Hc].
  - apply Z.leb_le in Hc. simpl in Hc. lia.
  - now apply String.eqb_eq.
Qed.

(** *** Digits *)

Lemma nat_of_digit_char d :
  0 <= d <= 9 -> nat_of_ascii (digit_char d) = (48 + Z.to_nat d)%nat.
Proof. intros Hd. unfold digit_char. apply nat_ascii_embedding. lia. Qed.

Lemma digit_char_inj a b :
  0 <= a <= 9 -> 0 <= b <= 9 -> digit_char a = digit_char b -> a = b.
Proof.
  intros Ha Hb H. apply (f_equal nat_of_ascii) in H.
  rewrite !nat_of_digit_char in H by assumption. lia.
Qed.

(** The digits written determine the number up to [10 ^ w]. *)
Lemma fixed_digits_mod w : forall n m,
  fixed_digits w n = fixed_digits w m ->
  n mod 10 ^ Z.of_nat w = m mod 10 ^ Z.of_nat w.
Proof.
  induction w as [|w IH]; intros n m H.
  - change (10 ^ Z.of_nat 0) with 1. now rewrite !Z.mod_1_r.
  - cbn [fixed_digits] in H. injection H as Hd Hrest.
    apply digit_char_inj in Hd.
    + specialize (IH n m Hrest).
      rewrite Nat2Z.inj_succ, Z.pow_succ_r by lia.
      rewrite (Z.mul_comm 10).
      rewrite !Z.rem_mul_r by lia. rewrite IH, Hd. reflexivity.
    + pose proof (Z.mod_pos_bound (n / 10 ^ Z.of_nat w) 10). lia.
    + pose proof (Z.mod_pos_bound (m / 10 ^ Z.of_nat w) 10). lia.
Qed.

Lemma fixed_digits_inj w n m :
  0 <= n < 10 ^ Z.of_nat w -> 0 <= m < 10 ^ Z.of_nat w ->
  fixed_digits w n = fixed_digits w m -> n = m.
Proof.
  intros Hn Hm H. apply fixed_digits_mod in H.
  rewrite !Z.mod_small in H by assumption. exact H.
Qed.

Lemma digits_only_fixed w n : digits_only (fixed_digits w n) = true.
Proof.
  induction w as [|w IH]; [reflexivity|].
  cbn [fixed_digits digits_only]. rewrite IH, andb_true_r.
  pose proof (Z.mod_pos_bound (n / 10 ^ Z.of_nat w) 10 ltac:(lia)) as Hd.
  rewrite nat_of_digit_char by lia.
  apply andb_true_intro. split; [apply Nat.leb_le | apply Nat.leb_le]; lia.
Qed.

Lemma digits_only_N_char x s :
  digits_only s = true -> digits_only (String (pretty_N_char x) s) = true.
Proof.
  intros Hs. cbn [digits_only]. rewrite Hs, andb_true_r.
  unfold pretty_N_char. repeat case_match; reflexivity.
Qed.

Lemma digits_only_N_go x : forall s,
  digits_only s = true -> digits_only (pretty_N_go x s) = true.
Proof.
  induction (N.lt_wf_0 x) as [x _ IH]. intros s Hs.
  destruct (decide (x = 0%N)) as [->|Hx].
  - now rewrite pretty_N_go_0.
  - rewrite pretty_N_go_step by lia.
    apply IH; [apply N.div_lt; lia | now apply digits_only_N_char].
Qed.

Lemma digits_only_pretty_N (x : N) : digits_only (pretty x) = true.
Proof.
  unfold pretty, pretty_N. destruct (decide (x = 0%N)); [reflexivity|].
  now apply digits_only_N_go.
Qed.

Lemma digits_only_pretty_nat (n : nat) : digits_only (pretty n) = true.
Proof. apply (digits_only_pretty_N (N.of_nat n)). Qed.

Lemma digits_only_pretty_Z (y : Z) : 0 <= y -> digits_only (pretty y) = true.
Proof.
  intros Hy. destruct y as [|p|p]; [reflexivity| |lia].
  apply (digits_only_pretty_N (N.pos p)).
Qed.

Lemma digits_only_ascii s : digits_only s = true -> ascii_only s = true.
Proof.
  induction s as [|a s IH]; [reflexivity|]. cbn [digits_only ascii_only].
  intros H. apply andb_prop in H as [Ha Hs]. rewrite (IH Hs), andb_true_r.
  apply andb_prop in Ha as [_ Ha]. apply Nat.leb_le in Ha. apply Nat.ltb_lt. lia.
Qed.

Lemma ascii_only_app s t :
  ascii_only s = true -> ascii_only t = true -> ascii_only (s +:+ t) = true.
Proof.
  intros Hs Ht. induction s as [|a s IH]; [exact Ht|].
  cbn [ascii_only] in Hs. apply andb_prop in Hs as [Ha Hs].
  change (ascii_only (String a (s +:+ t)) = true).
  cbn [ascii_only]. now rewrite Ha, (IH Hs).
Qed.

(** Text of ASCII characters can always be encoded. *)
Lemma ascii_only_encodable s : ascii_only s = true -> encodable s = true.
Proof.
  induction s as [|a s IH]; [reflexivity|]. cbn [ascii_only].
  intros H. apply andb_prop in H as [Ha Hs]. cbn [encodable].
  rewrite (IH Hs), andb_true_r. destruct s as [|b s]; [reflexivity|].
  unfold surrogate_start. apply Nat.ltb_lt in Ha.
  destruct (Nat.eqb_spec (nat_of_ascii a) 237); [lia | reflexivity].
Qed.

(** A text of digits before a dash is found again from the whole. *)
Lemma split_at_dash a : forall b x y,
  digits_only a = true -> digits_only b = true ->
  a +:+ String "-" x = b +:+ String "-" y -> a = b /\ x = y.
Proof.
  induction a as [|c a IH]; intros [|c' b] x y Ha Hb H.
  - injection H as ->. split; reflexivity.
  - injection H as <- _. discriminate Hb.
  - injection H as -> _. discriminate Ha.
  - injection H as -> H.
    cbn [digits_only] in Ha, Hb.
    apply andb_prop in Ha as [_ Ha]. apply andb_prop in Hb as [_ Hb].
    destruct (IH b x y Ha Hb H) as [-> ->]. split; reflexivity.
Qed.

(** *** The year *)

Lemma zfill_full w s : (w <= String.length s)%nat -> zfill w s = s.
Proof.
  intros H. unfold zfill. replace (w - String.length s)%nat with O by lia.
  reflexivity.
Qed.

Lemma year_text_digits padded y :
  1 <= y <= 9999 -> digits_only (year_text padded y) = true.
Proof.
  intros Hy. unfold year_text. destruct padded.
  - rewrite fmt_field_4 by lia. apply digits_only_fixed.
  - apply digits_only_pretty_Z. lia.
Qed.

(** From 1000 on, and below when the C library pads, the year is
    printed on four digits. *)
Lemma year_text_four padded y :
  1 <= y <= 9999 -> padded = true \/ 1000 <= y ->
  year_text padded y = fixed_digits 4 y.
Proof.
  intros Hy Hp. unfold year_text. destruct padded.
  - apply fmt_field_4. lia.
  - destruct Hp as [Hp|Hp]; [discriminate|].
    pose proof (fmt_field_4 y ltac:(lia)) as H4. unfold fmt_field, zfill in H4.
    destruct (4 - String.length (pretty y))%nat as [|k] eqn:Hk; [exact H4|].
    exfalso. cbn [zeros] in H4.
    change (String "0" (zeros k +:+ pretty y) = fixed_digits 4 y) in H4.
    cbn [fixed_digits] in H4. injection H4 as Hd _.
    change "0"%char with (digit_char 0) in Hd.
    apply digit_char_inj in Hd; [| lia |].
    + change (10 ^ Z.of_nat 3) with 1000 in Hd.
      Z.div_mod_to_equations. lia.
    + pose proof (Z.mod_pos_bound (y / 10 ^ Z.of_nat 3) 10). lia.
Qed.

Lemma year_text_inj padded y y' :
  1 <= y <= 9999 -> 1 <= y' <= 9999 ->
  year_text padded y = year_text padded y' -> y = y'.
Proof.
  intros Hy Hy'. destruct padded.
  - rewrite !year_text_four by auto.
    apply fixed_digits_inj; simpl; lia.
  - unfold year_text. apply pretty_Z_inj.
Qed.

(** *** Stamps *)

(** On the fields of a datetime, [strftime] prints the year as the C
    library has it, then two digits for every other field. *)
Lemma strftime_eq padded c :
  valid_datetime c ->
  strftime padded c = year_text padded (year c) +:+ clock_part c.
Proof.
  intros (Hy & Hd & Hh & Hmi & Hs & _).
  apply valid_date_bounds in Hd as [Hm Hd].
  unfold strftime, clock_part, clock_digits.
  rewrite (fmt_field_2 (month c)), (fmt_field_2 (day c)),
    (fmt_field_2 (hour c)), (fmt_field_2 (minute c)), (fmt_field_2 (second c))
    by lia.
  reflexivity.
Qed.


Lemma append_assoc (a b c : string) : (a +:+ b) +:+ c = a +:+ (b +:+ c).
Proof.
  induction a as [|x a IH]; [reflexivity|].
  change (String x ((a +:+ b) +:+ c) = String x (a +:+ (b +:+ c))).
  now rewrite IH.
Qed.

Lemma length_clock_digits c : String.length (clock_digits c) = 14%nat.
Proof.
  unfold clock_digits. rewrite !length_append, !length_fixed_digits. reflexivity.
Qed.

Lemma length_stamp c : String.length (stamp c) = 19%nat.
Proof.
  unfold stamp, clock_part.
  rewrite !length_append, length_fixed_digits, length_clock_digits.
  reflexivity.
Qed.

Lemma ascii_only_clock_part c : ascii_only (clock_part c) = true.
Proof.
  unfold clock_part, clock_digits.
  repeat first [ reflexivity
               | apply digits_only_ascii, digits_only_fixed
               | apply ascii_only_app ].
Qed.

Lemma ascii_only_strftime padded c :
  valid_datetime c -> ascii_only (strftime padded c) = true.
Proof.
  intros Hv. rewrite (strftime_eq padded c Hv). apply ascii_only_app.
  - apply digits_only_ascii, year_text_digits, Hv.
  - apply ascii_only_clock_part.
Qed.

(** The digits after the year give back the fields from the month to
    the second. *)
Lemma clock_digits_inj c1 c2 :
  valid_datetime c1 -> valid_datetime c2 -> clock_digits c1 = clock_digits c2 ->
  month c1 = month c2 /\ day c1 = day c2 /\
  hour c1 = hour c2 /\ minute c1 = minute c2 /\ second c1 = second c2.
Proof.
  intros (_ & Hd1 & Hh1 & Hmi1 & Hs1 & _) (_ & Hd2 & Hh2 & Hmi2 & Hs2 & _) H.
  apply valid_date_bounds in Hd1, Hd2.
  unfold clock_digits in H.
  repeat (apply app_inv_length in H as [? H];
          [|rewrite ?length_fixed_digits; reflexivity]).
  repeat match goal with
         | E : fixed_digits _ _ = fixed_digits _ _ |- _ =>
             apply fixed_digits_inj in E; [|simpl; lia..]
         end.
  repeat split; assumption.
Qed.

(** A name that starts with a year, the fields and some tail is taken
    apart in one way only. *)
Lemma name_split (y1 y2 t1 t2 : string) c1 c2 :
  digits_only y1 = true -> digits_only y2 = true ->
  y1 +:+ clock_part c1 +:+ t1 = y2 +:+ clock_part c2 +:+ t2 ->
  y1 = y2 /\ clock_digits c1 = clock_digits c2 /\ t1 = t2.
Proof.
  intros H1 H2 H.
  change (y1 +:+ String "-" (clock_digits c1 +:+ t1)
          = y2 +:+ String "-" (clock_digits c2 +:+ t2)) in H.
  apply split_at_dash in H as [-> H]; [|assumption..].
  apply app_inv_length in H as [-> ->]; [auto|].
  now rewrite !length_clock_digits.
Qed.

(** ** Conversion to a time zone *)


Lemma to_delta_replace_tzinfo dt tz : to_delta (replace_tzinfo dt tz) = to_delta dt.
Proof. reflexivity. Qed.

Lemma valid_replace_tzinfo dt tz : valid_datetime dt -> valid_datetime (replace_tzinfo dt tz).
Proof. intros H. exact H. Qed.

Lemma fromutc_correct tz u c :
  fromutc tz u = inr c ->
  exists off, zone_offset tz (to_delta u) = Some off /\
              to_delta c = to_delta u + off /\ valid_datetime c.
Proof.
  unfold fromutc, zone_offset, datetime_add. cbv zeta.
  rewrite Nat.max_0_l.
  destruct (transition_info tz !! _) as [inf|]; [|discriminate].
  rewrite to_delta_replace_tzinfo.
  destruct (of_delta _ _) as [e|r] eqn:Hr; [discriminate|].
  intros [= <-]. apply of_delta_correct in Hr as (Hd & Hv & _).
  exists inf. rewrite to_delta_replace_tzinfo.
  split; [reflexivity|]. split; [exact Hd|]. now apply valid_replace_tzinfo.
Qed.

(** [astimezone] yields the civil time of the same instant in the target
    zone: the source offset is taken off, the zone's offset at that
    instant is added, and the result is a valid datetime. *)
Lemma astimezone_correct local dt tz c :
  astimezone local dt tz = inr c ->
  exists src off,
    match tzinfo dt with Some o => inr o | None => local dt end = inr src /\
    zone_offset tz (to_delta dt - src) = Some off /\
    to_delta c = to_delta dt - src + off /\ valid_datetime c.
Proof.
  unfold astimezone, datetime_sub, datetime_add. cbv zeta.
  destruct (match tzinfo dt with Some o => inr o | None => local dt end)
    as [e|src]; [discriminate|].
  destruct (of_delta _ _) as [e|utc] eqn:Hutc; [discriminate|].
  apply of_delta_correct in Hutc as (Hd & _ & _).
  intros Hc. apply fromutc_correct in Hc as (off & Hoff & Hdc & Hv).
  exists src, off. rewrite Hd in Hoff, Hdc.
  replace (to_delta dt + - src) with (to_delta dt - src) in Hoff, Hdc by lia.
  auto.
Qed.


(** ** The loop body *)

Ltac world_simpl :=
  cbn [export_dir lifelogs stdout clock ticks environ
       set_ticks set_export_dir set_stdout set_lifelogs fst snd].

Lemma write_after_open (f t : string) (files : gmap string string) :
  <[f := default "" (<[f := ""]> files !! f) +:+ t]> (<[f := ""]> files)
  = <[f := t]> files.
Proof. rewrite lookup_insert_eq, insert_insert_eq. reflexivity. Qed.

(** The equations of the statements. *)
Section Statements.
Context {A B : Type}.

Lemma bind_now (k : datetime -> io B) w :
  io_bind datetime_now k w = k (clock w (ticks w)) (set_ticks (S (ticks w)) w).
Proof. reflexivity. Qed.

Lemma bind_lift_inr (a : A) (k : A -> io B) w : io_bind (lift (inr a)) k w = k a w.
Proof. reflexivity. Qed.

Lemma bind_lift_inl e (k : A -> io B) w : io_bind (lift (inl e)) k w = (w, Raised e).
Proof. reflexivity. Qed.

Lemma bind_open_w f (k : unit -> io B) w files :
  export_dir w = Some files ->
  io_bind (open_w f) k w = k tt (set_export_dir (Some (<[f := ""]> files)) w).
Proof. intros H. unfold io_bind, open_w. rewrite H. reflexivity. Qed.

Lemma bind_open_w_missing f (k : unit -> io B) w :
  export_dir w = None -> io_bind (open_w f) k w = (w, Raised FileNotFoundError).
Proof. intros H. unfold io_bind, open_w. rewrite H. reflexivity. Qed.

Lemma bind_f_write f s (k : unit -> io B) w files :
  encodable s = true ->
  export_dir w = Some files ->
  io_bind (f_write f (PStr s)) k w
  = k tt (set_export_dir (Some (<[f := default "" (files !! f) +:+ s]> files)) w).
Proof. intros Hs H. unfold io_bind, f_write. rewrite Hs, H. reflexivity. Qed.

Lemma bind_f_write_unencodable f s (k : unit -> io B) w :
  encodable s = false ->
  io_bind (f_write f (PStr s)) k w = (w, Raised UnicodeEncodeError).
Proof. intros Hs. unfold io_bind, f_write. rewrite Hs. reflexivity. Qed.

Lemma bind_f_write_refused f v (k : unit -> io B) w :
  (forall s, v <> PStr s) -> io_bind (f_write f v) k w = (w, Raised TypeError).
Proof.
  intros H. unfold io_bind, f_write.
  destruct v as [| | |s| |]; try reflexivity. now destruct (H s).
Qed.

Lemma bind_len (k : nat -> io B) w :
  io_bind len_lifelogs k w = k (length (lifelogs w)) w.
Proof. reflexivity. Qed.

Lemma bind_print l (k : unit -> io B) w :
  line_encodable l = true ->
  io_bind (print l) k w = k tt (set_stdout (stdout w ++ [l]) w).
Proof. intros H. unfold io_bind, print. rewrite H. reflexivity. Qed.

Lemma bind_print_refused l (k : unit -> io B) w :
  line_encodable l = false ->
  io_bind (print l) k w = (w, Raised UnicodeEncodeError).
Proof. intros H. unfold io_bind, print. rewrite H. reflexivity. Qed.

Lemma try_except_returns (m : io B) h w w' b :
  m w = (w', Return b) -> try_except m h w = (w', Return b).
Proof. intros H. unfold try_except. rewrite H. reflexivity. Qed.

Lemma try_except_raised (m : io B) h w w' e :
  m w = (w', Raised e) -> try_except m h w = h e w'.
Proof. intros H. unfold try_except. rewrite H. reflexivity. Qed.

End Statements.

Lemma print_line l w :
  line_encodable l = true ->
  print l w = (set_stdout (stdout w ++ [l]) w, Return tt).
Proof. intros H. unfold print. rewrite H. reflexivity. Qed.

Lemma print_refused l w :
  line_encodable l = false -> print l w = (w, Raised UnicodeEncodeError).
Proof. intros H. unfold print. rewrite H. reflexivity. Qed.

Section Body.
Context {P : Platform}.

(** [f.write] on the [markdown] of a lifelog does what [write_outcome]
    says. *)
Lemma bind_f_write_text {B} f r t (k : unit -> io B) w files :
  write_outcome r = inr t ->
  export_dir w = Some files ->
  io_bind (f_write f (dict_get_default r "markdown" (PStr ""))) k w
  = k tt (set_export_dir (Some (<[f := default "" (files !! f) +:+ t]> files)) w).
Proof.
  unfold write_outcome, markdown_text, dict_get_default. intros Ht Hd.
  destruct (r !! "markdown") as [[| | |s| |]|]; simpl in *; try discriminate.
  - destruct (encodable s) eqn:Hs; [|discriminate]. injection Ht as <-.
    now apply bind_f_write.
  - injection Ht as <-. now apply bind_f_write.
Qed.

Lemma bind_f_write_raises {B} f r e (k : unit -> io B) w :
  write_outcome r = inl e ->
  io_bind (f_write f (dict_get_default r "markdown" (PStr ""))) k w = (w, Raised e).
Proof.
  unfold write_outcome, markdown_text, dict_get_default. intros He.
  destruct (r !! "markdown") as [[| | |s| |]|]; simpl in *;
    try (injection He as <-; now apply bind_f_write_refused).
  - destruct (encodable s) eqn:Hs; [discriminate|]. injection He as <-.
    now apply bind_f_write_unencodable.
  - discriminate.
Qed.

Lemma write_outcome_text r t :
  write_outcome r = inr t <-> markdown_text r = Some t /\ encodable t = true.
Proof.
  unfold write_outcome. destruct (markdown_text r) as [s|].
  - destruct (encodable s) eqn:Hs; split.
    + intros [= <-]. auto.
    + intros [[= <-] _]. reflexivity.
    + discriminate.
    + intros [[= <-] Ht]. congruence.
  - split; [discriminate | intros [H _]; discriminate].
Qed.

Lemma timestamp_filename_eq r :
  timestamp_filename r =
  match py_fromisoformat (dict_get r "startTime") with
  | inl e => inl e
  | inr start_time =>
      match astimezone local_utcoffset start_time chicago_tz with
      | inl e => inl e
      | inr c => inr (strftime year_padded c +:+ ".md")
      end
  end.
Proof. reflexivity. Qed.

Lemma fallback_filename_eq now i :
  fallback_filename now i =
  match astimezone local_utcoffset now chicago_tz with
  | inl e => inl e
  | inr c => inr (strftime year_padded c +:+ "-" +:+ pretty i +:+ ".md")
  end.
Proof. reflexivity. Qed.

(** A name comes out of the timestamp branch exactly when the
    timestamp parses and converts. *)
Lemma timestamp_filename_inr r f :
  timestamp_filename r = inr f <->
  exists st c, py_fromisoformat (dict_get r "startTime") = inr st /\
               astimezone local_utcoffset st chicago_tz = inr c /\
               f = strftime year_padded c +:+ ".md".
Proof.
  rewrite timestamp_filename_eq. split.
  - destruct (py_fromisoformat _) as [e|st]; [discriminate|].
    destruct (astimezone _ st _) as [e|c] eqn:Hc; [discriminate|].
    intros [= <-]. eauto.
  - intros (st & c & -> & Hc & ->). rewrite Hc. reflexivity.
Qed.

Lemma timestamp_filename_inl r e :
  timestamp_filename r = inl e <->
  py_fromisoformat (dict_get r "startTime") = inl e \/
  exists st, py_fromisoformat (dict_get r "startTime") = inr st /\
             astimezone local_utcoffset st chicago_tz = inl e.
Proof.
  rewrite timestamp_filename_eq. split.
  - destruct (py_fromisoformat _) as [e'|st]; [intros [= ->]; auto|].
    destruct (astimezone _ st _) as [e'|c] eqn:Hc; [|discriminate].
    intros [= ->]. eauto.
  - intros [->|(st & -> & Hc)]; [reflexivity|]. rewrite Hc. reflexivity.
Qed.

Lemma fallback_filename_inr now i f :
  fallback_filename now i = inr f <->
  exists c, astimezone local_utcoffset now chicago_tz = inr c /\
            f = strftime year_padded c +:+ "-" +:+ pretty i +:+ ".md".
Proof.
  rewrite fallback_filename_eq. split.
  - destruct (astimezone _ now _) as [e|c] eqn:Hc; [discriminate|].
    intros [= <-]. eauto.
  - intros (c & Hc & ->). rewrite Hc. reflexivity.
Qed.

Lemma fallback_filename_inl now i e :
  fallback_filename now i = inl e <->
  astimezone local_utcoffset now chicago_tz = inl e.
Proof.
  rewrite fallback_filename_eq. split.
  - destruct (astimezone _ now _) as [e'|c] eqn:Hc; [|discriminate].
    intros [= ->]. reflexivity.
  - intros Hc. rewrite Hc. reflexivity.
Qed.

(** The names the loop builds are made of digits, dashes and [.md]:
    printing them cannot fail. *)
Lemma timestamp_filename_encodable r f :
  timestamp_filename r = inr f -> encodable f = true.
Proof.
  intros Hf. apply timestamp_filename_inr in Hf as (st & c & _ & Hc & ->).
  apply astimezone_correct in Hc as (_ & _ & _ & _ & _ & Hv).
  apply ascii_only_encodable, ascii_only_app; [|reflexivity].
  now apply ascii_only_strftime.
Qed.

Lemma fallback_filename_encodable now i f :
  fallback_filename now i = inr f -> encodable f = true.
Proof.
  intros Hf. apply fallback_filename_inr in Hf as (c & Hc & ->).
  apply astimezone_correct in Hc as (_ & _ & _ & _ & _ & Hv).
  apply ascii_only_encodable.
  repeat first [ reflexivity
               | now apply ascii_only_strftime
               | apply digits_only_ascii, digits_only_pretty_nat
               | apply ascii_only_app ].
Qed.

(** Timestamp branch, name derived, text written. *)
Lemma export_record_exported i r w files f t :
  truthy (dict_get r "startTime") = true ->
  timestamp_filename r = inr f ->
  write_outcome r = inr t ->
  export_dir w = Some files ->
  export_record i r w =
    (mk_world (lifelogs w) (Some (<[f := t]> files))
       (stdout w ++ [LExported i (length (lifelogs w)) f])
       (clock w) (ticks w) (environ w),
     Return tt).
Proof.
  intros Ht Hf Hm Hd. unfold export_record. rewrite Ht.
  pose proof (timestamp_filename_encodable r f Hf) as Henc.
  apply timestamp_filename_inr in Hf as (st & c & Hst & Hc & ->).
  apply try_except_returns.
  rewrite Hst, bind_lift_inr, Hc, bind_lift_inr.
  rewrite (bind_open_w _ _ _ files Hd).
  rewrite (bind_f_write_text _ r t _ _ (<[_ := ""]> files) Hm) by reflexivity.
  rewrite bind_len, write_after_open.
  rewrite print_line by exact Henc. reflexivity.
Qed.

(** Timestamp branch, no name derived: the error is printed and
    nothing else changes. *)
Lemma export_record_error i r w e :
  truthy (dict_get r "startTime") = true ->
  timestamp_filename r = inl e ->
  printable (dict_get r "startTime") = true ->
  export_record i r w =
    (mk_world (lifelogs w) (export_dir w)
       (stdout w ++ [LError i (length (lifelogs w)) (dict_get r "startTime") e])
       (clock w) (ticks w) (environ w),
     Return tt).
Proof.
  intros Ht Hf Hp. unfold export_record. rewrite Ht.
  apply timestamp_filename_inl in Hf as [Hst|(st & Hst & Hc)].
  - rewrite (try_except_raised _ _ w w e);
      [rewrite bind_len; now rewrite print_line
      | now rewrite Hst, bind_lift_inl].
  - rewrite (try_except_raised _ _ w w e);
      [rewrite bind_len; now rewrite print_line
      | now rewrite Hst, bind_lift_inr, Hc, bind_lift_inl].
Qed.

(** The same when the timestamp cannot be printed: the handler's
    [print] raises, and nothing has changed. *)
Lemma export_record_error_unprintable i r w e :
  truthy (dict_get r "startTime") = true ->
  timestamp_filename r = inl e ->
  printable (dict_get r "startTime") = false ->
  export_record i r w = (w, Raised UnicodeEncodeError).
Proof.
  intros Ht Hf Hp. unfold export_record. rewrite Ht.
  apply timestamp_filename_inl in Hf as [Hst|(st & Hst & Hc)].
  - rewrite (try_except_raised _ _ w w e);
      [rewrite bind_len; now rewrite print_refused
      | now rewrite Hst, bind_lift_inl].
  - rewrite (try_except_raised _ _ w w e);
      [rewrite bind_len; now rewrite print_refused
      | now rewrite Hst, bind_lift_inr, Hc, bind_lift_inl].
Qed.

(** Timestamp branch, name derived, but [f.write] raises: the file is
    left empty and the error is printed. *)
Lemma export_record_write_error i r w files f e :
  truthy (dict_get r "startTime") = true ->
  timestamp_filename r = inr f ->
  write_outcome r = inl e ->
  export_dir w = Some files ->
  printable (dict_get r "startTime") = true ->
  export_record i r w =
    (mk_world (lifelogs w) (Some (<[f := ""]> files))
       (stdout w ++ [LError i (length (lifelogs w)) (dict_get r "startTime") e])
       (clock w) (ticks w) (environ w),
     Return tt).
Proof.
  intros Ht Hf Hm Hd Hp. unfold export_record. rewrite Ht.
  apply timestamp_filename_inr in Hf as (st & c & Hst & Hc & ->).
  rewrite (try_except_raised _ _ w
             (set_export_dir (Some (<[strftime year_padded c +:+ ".md" := ""]> files)) w)
             e).
  - rewrite bind_len. now rewrite print_line.
  - rewrite Hst, bind_lift_inr, Hc, bind_lift_inr.
    rewrite (bind_open_w _ _ _ files Hd).
    now apply bind_f_write_raises.
Qed.

(** The same when the timestamp cannot be printed: the file is left
    empty and the handler's [print] raises. *)
Lemma export_record_write_error_unprintable i r w files f e :
  truthy (dict_get r "startTime") = true ->
  timestamp_filename r = inr f ->
  write_outcome r = inl e ->
  export_dir w = Some files ->
  printable (dict_get r "startTime") = false ->
  export_record i r w =
    (mk_world (lifelogs w) (Some (<[f := ""]> files)) (stdout w)
       (clock w) (ticks w) (environ w),
     Raised UnicodeEncodeError).
Proof.
  intros Ht Hf Hm Hd Hp. unfold export_record. rewrite Ht.
  apply timestamp_filename_inr in Hf as (st & c & Hst & Hc & ->).
  rewrite (try_except_raised _ _ w
             (set_export_dir (Some (<[strftime year_padded c +:+ ".md" := ""]> files)) w)
             e).
  - rewrite bind_len. now rewrite print_refused.
  - rewrite Hst, bind_lift_inr, Hc, bind_lift_inr.
    rewrite (bind_open_w _ _ _ files Hd).
    now apply bind_f_write_raises.
Qed.

(** Timestamp branch without a directory to write to. *)
Lemma export_record_no_directory i r w f :
  truthy (dict_get r "startTime") = true ->
  timestamp_filename r = inr f ->
  export_dir w = None ->
  export_record i r w =
    (fun w' =>
       n <- len_lifelogs ;;
       print (LError i n (dict_get r "startTime") FileNotFoundError)) w w.
Proof.
  intros Ht Hf Hd. unfold export_record. rewrite Ht.
  apply timestamp_filename_inr in Hf as (st & c & Hst & Hc & ->).
  rewrite (try_except_raised _ _ w w FileNotFoundError); [reflexivity|].
  rewrite Hst, bind_lift_inr, Hc, bind_lift_inr.
  now apply bind_open_w_missing.
Qed.

(** Fallback branch, text written. *)
Lemma export_record_fallback i r w files f t :
  truthy (dict_get r "startTime") = false ->
  fallback_filename (clock w (ticks w)) i = inr f ->
  write_outcome r = inr t ->
  export_dir w = Some files ->
  export_record i r w =
    (mk_world (lifelogs w) (Some (<[f := t]> files))
       (stdout w ++ [LNoTimestamp i (length (lifelogs w)) f])
       (clock w) (S (ticks w)) (environ w),
     Return tt).
Proof.
  intros Ht Hf Hm Hd. unfold export_record. rewrite Ht.
  pose proof (fallback_filename_encodable _ _ f Hf) as Henc.
  apply fallback_filename_inr in Hf as (c & Hc & ->).
  rewrite bind_now, Hc, bind_lift_inr.
  rewrite (bind_open_w _ _ _ files) by exact Hd.
  rewrite (bind_f_write_text _ r t _ _ (<[_ := ""]> files) Hm) by reflexivity.
  rewrite bind_len, write_after_open.
  rewrite print_line by exact Henc. reflexivity.
Qed.

(** Fallback branch when [f.write] raises: nothing handles it. *)
Lemma export_record_fallback_refused i r w files f e :
  truthy (dict_get r "startTime") = false ->
  fallback_filename (clock w (ticks w)) i = inr f ->
  write_outcome r = inl e ->
  export_dir w = Some files ->
  export_record i r w =
    (mk_world (lifelogs w) (Some (<[f := ""]> files))
       (stdout w) (clock w) (S (ticks w)) (environ w),
     Raised e).
Proof.
  intros Ht Hf Hm Hd. unfold export_record. rewrite Ht.
  apply fallback_filename_inr in Hf as (c & Hc & ->).
  rewrite bind_now, Hc, bind_lift_inr.
  rewrite (bind_open_w _ _ _ files) by exact Hd.
  now rewrite (bind_f_write_raises _ r e).
Qed.

(** Fallback branch when the clock reading does not convert. *)
Lemma export_record_fallback_no_name i r w e :
  truthy (dict_get r "startTime") = false ->
  fallback_filename (clock w (ticks w)) i = inl e ->
  export_record i r w = (set_ticks (S (ticks w)) w, Raised e).
Proof.
  intros Ht Hf. unfold export_record. rewrite Ht.
  apply fallback_filename_inl in Hf.
  now rewrite bind_now, Hf, bind_lift_inl.
Qed.

(** Fallback branch without a directory to write to. *)
Lemma export_record_fallback_no_directory i r w f :
  truthy (dict_get r "startTime") = false ->
  fallback_filename (clock w (ticks w)) i = inr f ->
  export_dir w = None ->
  export_record i r w = (set_ticks (S (ticks w)) w, Raised FileNotFoundError).
Proof.
  intros Ht Hf Hd. unfold export_record. rewrite Ht.
  apply fallback_filename_inr in Hf as (c & Hc & ->).
  rewrite bind_now, Hc, bind_lift_inr.
  now rewrite bind_open_w_missing.
Qed.

Ltac frame_done :=
  repeat (first [split | intro]); first [reflexivity | congruence | eauto].

(** Whatever it does, the loop body leaves the list of lifelogs, the
    clock and the environment as they are, and an existing directory
    in place; it uses no loop bound.  The timestamp branch reads no
    clock, and no exception leaves it when the timestamp can be
    printed. *)
Lemma export_record_frame i r w :
  let '(w', o) := export_record i r w in
  lifelogs w' = lifelogs w /\ clock w' = clock w /\ environ w' = environ w /\
  (is_Some (export_dir w) -> is_Some (export_dir w')) /\
  o <> OutOfFuel /\
  (truthy (dict_get r "startTime") = true ->
   ticks w' = ticks w /\
   (printable (dict_get r "startTime") = true -> o = Return tt)).
Proof.
  destruct (truthy (dict_get r "startTime")) eqn:Ht.
  - destruct (printable (dict_get r "startTime")) eqn:Hp.
    + destruct (timestamp_filename r) as [e|f] eqn:Hf.
      * rewrite (export_record_error i r w e Ht Hf Hp). world_simpl.
        frame_done.
      * destruct (export_dir w) as [files|] eqn:Hd.
        -- destruct (write_outcome r) as [e|t] eqn:Hm.
           ++ rewrite (export_record_write_error i r w files f e Ht Hf Hm Hd Hp).
              world_simpl. frame_done.
           ++ rewrite (export_record_exported i r w files f t Ht Hf Hm Hd).
              world_simpl. frame_done.
        -- rewrite (export_record_no_directory i r w f Ht Hf Hd).
           rewrite bind_len, print_line by exact Hp. world_simpl.
           frame_done.
    + destruct (timestamp_filename r) as [e|f] eqn:Hf.
      * rewrite (export_record_error_unprintable i r w e Ht Hf Hp).
        frame_done.
      * destruct (export_dir w) as [files|] eqn:Hd.
        -- destruct (write_outcome r) as [e|t] eqn:Hm.
           ++ rewrite (export_record_write_error_unprintable i r w files f e
                         Ht Hf Hm Hd Hp).
              world_simpl. frame_done.
           ++ rewrite (export_record_exported i r w files f t Ht Hf Hm Hd).
              world_simpl. frame_done.
        -- rewrite (export_record_no_directory i r w f Ht Hf Hd).
           rewrite bind_len, print_refused by exact Hp.
           frame_done.
  - destruct (fallback_filename (clock w (ticks w)) i) as [e|f] eqn:Hf.
    + rewrite (export_record_fallback_no_name i r w e Ht Hf). world_simpl.
      frame_done.
    + destruct (export_dir w) as [files|] eqn:Hd.
      * destruct (write_outcome r) as [e|t] eqn:Hm.
        -- rewrite (export_record_fallback_refused i r w files f e Ht Hf Hm Hd).
           world_simpl. frame_done.
        -- rewrite (export_record_fallback i r w files f t Ht Hf Hm Hd).
           world_simpl. frame_done.
      * rewrite (export_record_fallback_no_directory i r w f Ht Hf Hd).
        world_simpl. frame_done.
Qed.

End Body.

(** ** The loop and the header *)

Section Loop.
Context {P : Platform}.

Lemma run_from_cons idx r rest w :
  run_from idx (r :: rest) w =
  match export_record (S idx) r w with
  | (w', Return _) => run_from (S idx) rest w'
  | (w', Raised e) => (w', Raised e)
  | (w', OutOfFuel) => (w', OutOfFuel)
  end.
Proof. reflexivity. Qed.

Lemma for_enumerate_unfold fuel idx body w :
  for_enumerate fuel idx body w =
  match lifelogs w !! idx with
  | None => (w, Return tt)
  | Some x =>
      match fuel with
      | O => (w, OutOfFuel)
      | S fuel' =>
          match body (S idx) x w with
          | (w', Return _) => for_enumerate fuel' (S idx) body w'
          | (w', Raised e) => (w', Raised e)
          | (w', OutOfFuel) => (w', OutOfFuel)
          end
      end
  end.
Proof. destruct fuel; reflexivity. Qed.

(** With as many rounds as lifelogs are left, the loop over the live
    list is the loop over the list as it was on entry. *)
Lemma for_enumerate_run fuel idx w :
  (length (lifelogs w) - idx <= fuel)%nat ->
  for_enumerate fuel idx export_record w
  = run_from idx (drop idx (lifelogs w)) w.
Proof.
  revert idx w. induction fuel as [|fuel IH]; intros idx w Hfuel;
    rewrite for_enumerate_unfold.
  - destruct (lifelogs w !! idx) as [x|] eqn:Hx.
    + apply lookup_lt_Some in Hx. lia.
    + apply lookup_ge_None in Hx. rewrite drop_ge by lia. reflexivity.
  - destruct (lifelogs w !! idx) as [x|] eqn:Hx.
    + rewrite (drop_S _ _ _ Hx), run_from_cons.
      pose proof (export_record_frame (S idx) x w) as Hframe.
      destruct (export_record (S idx) x w) as [w' [[]|e|]]; try reflexivity.
      destruct Hframe as (Hl & _). rewrite <- Hl. apply IH. rewrite Hl. lia.
    + apply lookup_ge_None in Hx. rewrite drop_ge by lia. reflexivity.
Qed.

Lemma for_each_from_lines i copy w :
  for_each_from i copy
    (fun i lifelog => print (LStructure i) ;; print (LJson lifelog)) w
  = (mk_world (lifelogs w) (export_dir w) (stdout w ++ structure_lines i copy)
       (clock w) (ticks w) (environ w),
     Return tt).
Proof.
  revert i w. induction copy as [|x rest IH]; intros i w.
  - destruct w. simpl. unfold io_ret. simpl. rewrite app_nil_r. reflexivity.
  - cbn [for_each_from structure_lines].
    unfold io_bind at 1. rewrite bind_print by reflexivity.
    rewrite print_line by reflexivity.
    rewrite IH. world_simpl.
    rewrite <- !app_assoc. reflexivity.
Qed.

Lemma print_structure_lines w :
  print_structure w =
  (mk_world (lifelogs w) (export_dir w)
     (stdout w ++ match lifelogs w with
                  | [] => []
                  | first :: _ => LFirstKeys first :: structure_lines 1 (take 3 (lifelogs w))
                  end)
     (clock w) (ticks w) (environ w),
   Return tt).
Proof.
  unfold print_structure. destruct (lifelogs w) as [|first rest] eqn:Hl.
  - destruct w. simpl in *. rewrite app_nil_r. subst. reflexivity.
  - rewrite bind_print by reflexivity. rewrite for_each_from_lines. world_simpl.
    rewrite Hl, <- app_assoc. reflexivity.
Qed.

(** [export_data] makes sure the directory exists, prints its header
    and runs the loop over the lifelogs. *)
Lemma export_data_run w :
  export_data w =
  run_from 0 (lifelogs w)
    (mk_world (lifelogs w) (Some (default ∅ (export_dir w)))
       (stdout w ++ header_lines (lifelogs w)) (clock w) (ticks w) (environ w)).
Proof.
  unfold export_data.
  assert (Hmk : forall (k : unit -> io unit),
             io_bind mkdir_exist_ok k w
             = k tt (set_export_dir (Some (default ∅ (export_dir w))) w)).
  { intros k. unfold io_bind, mkdir_exist_ok.
    destruct w as [l [files|] o c t e]; reflexivity. }
  rewrite Hmk, bind_len, bind_print by reflexivity. unfold io_bind.
  rewrite print_structure_lines. world_simpl.
  rewrite for_enumerate_run by (world_simpl; lia). world_simpl.
  rewrite drop_0. unfold header_lines.
  rewrite <- app_assoc. reflexivity.
Qed.

End Loop.

(** ** The loop as a list of effects *)

Section Effects.
Context {P : Platform}.

Lemma record_effect_eq i n now r :
  record_effect i n now r =
  if truthy (dict_get r "startTime") then
    match timestamp_filename r with
    | inl e => printed None (LError i n (dict_get r "startTime") e) O
    | inr f =>
        match write_outcome r with
        | inr t => printed (Some (f, t)) (LExported i n f) O
        | inl e => printed (Some (f, "")) (LError i n (dict_get r "startTime") e) O
        end
    end
  else
    match fallback_filename now i, write_outcome r with
    | inr f, inr t => printed (Some (f, t)) (LNoTimestamp i n f) 1%nat
    | _, _ => None
    end.
Proof. reflexivity. Qed.

Lemma printed_Some wr l tk eff :
  printed wr l tk = Some eff -> eff = (wr, l, tk) /\ line_encodable l = true.
Proof.
  unfold printed. destruct (line_encodable l); [|discriminate].
  intros [= <-]. auto.
Qed.

Lemma printed_encodable wr l tk :
  line_encodable l = true -> printed wr l tk = Some (wr, l, tk).
Proof. intros H. unfold printed. now rewrite H. Qed.

Lemma effects_cons clk n idx tick r rest :
  effects clk n idx tick (r :: rest) =
  match record_effect (S idx) n (clk tick) r with
  | None => None
  | Some (wr, l, tk) =>
      match effects clk n (S idx) (tick + tk) rest with
      | None => None
      | Some effs => Some ((wr, l, tk) :: effs)
      end
  end.
Proof. reflexivity. Qed.

(** The four ways a round can end normally. *)
Lemma record_effect_cases i n now r wr l tk :
  record_effect i n now r = Some (wr, l, tk) ->
  (truthy (dict_get r "startTime") = true /\
   printable (dict_get r "startTime") = true /\
   exists e, timestamp_filename r = inl e /\
             wr = None /\ l = LError i n (dict_get r "startTime") e /\ tk = O) \/
  (truthy (dict_get r "startTime") = true /\
   exists f t, timestamp_filename r = inr f /\ write_outcome r = inr t /\
               wr = Some (f, t) /\ l = LExported i n f /\ tk = O) \/
  (truthy (dict_get r "startTime") = true /\
   printable (dict_get r "startTime") = true /\
   exists f e, timestamp_filename r = inr f /\ write_outcome r = inl e /\
               wr = Some (f, "") /\
               l = LError i n (dict_get r "startTime") e /\ tk = O) \/
  (truthy (dict_get r "startTime") = false /\
   exists f t, fallback_filename now i = inr f /\ write_outcome r = inr t /\
               wr = Some (f, t) /\ l = LNoTimestamp i n f /\ tk = 1%nat).
Proof.
  rewrite record_effect_eq.
  destruct (truthy (dict_get r "startTime")) eqn:Ht.
  - destruct (timestamp_filename r) as [e|f] eqn:Hf.
    + intros Hp. apply printed_Some in Hp as [[= -> -> ->] Hp].
      left. eauto 10.
    + destruct (write_outcome r) as [e|t] eqn:Hm;
        intros Hp; apply printed_Some in Hp as [[= -> -> ->] Hp].
      * right. right. left. eauto 10.
      * right. left. eauto 10.
  - destruct (fallback_filename now i) as [e|f] eqn:Hf; [discriminate|].
    destruct (write_outcome r) as [e|t] eqn:Hm; [discriminate|].
    intros Hp. apply printed_Some in Hp as [[= -> -> ->] Hp].
    right. right. right. eauto 10.
Qed.

(** The loop body does what its summary says. *)
Lemma export_record_effect i r w files wr l tk :
  export_dir w = Some files ->
  record_effect i (length (lifelogs w)) (clock w (ticks w)) r = Some (wr, l, tk) ->
  export_record i r w =
    (mk_world (lifelogs w) (Some (write_file files wr)) (stdout w ++ [l])
       (clock w) (ticks w + tk) (environ w),
     Return tt).
Proof.
  intros Hd. rewrite record_effect_eq.
  destruct (truthy (dict_get r "startTime")) eqn:Ht.
  - destruct (timestamp_filename r) as [e|f] eqn:Hf.
    + intros Hp. apply printed_Some in Hp as [[= -> -> ->] Hp].
      rewrite Nat.add_0_r.
      rewrite (export_record_error i r w e Ht Hf Hp), Hd. reflexivity.
    + destruct (write_outcome r) as [e|t] eqn:Hm;
        intros Hp; apply printed_Some in Hp as [[= -> -> ->] Hp];
        rewrite Nat.add_0_r.
      * apply export_record_write_error; assumption.
      * apply export_record_exported; assumption.
  - destruct (fallback_filename (clock w (ticks w)) i) as [e|f] eqn:Hf;
      [discriminate|].
    destruct (write_outcome r) as [e|t] eqn:Hm; [discriminate|].
    intros Hp. apply printed_Some in Hp as [[= -> -> ->] Hp].
    rewrite Nat.add_1_r.
    apply export_record_fallback; assumption.
Qed.

(** The loop over a list does what the summaries of its rounds say,
    one after the other. *)
Lemma run_from_effects rs : forall idx w files effs,
  export_dir w = Some files ->
  effects (clock w) (length (lifelogs w)) idx (ticks w) rs = Some effs ->
  run_from idx rs w =
    (mk_world (lifelogs w)
       (Some (foldl write_file files (effect_write <$> effs)))
       (stdout w ++ (effect_line <$> effs))
       (clock w) (ticks w + sum_list (effect_ticks <$> effs)) (environ w),
     Return tt).
Proof.
  induction rs as [|r rest IH]; intros idx w files effs Hd.
  - intros [= <-]. destruct w. simpl in *. subst.
    rewrite app_nil_r, Nat.add_0_r. reflexivity.
  - rewrite effects_cons.
    destruct (record_effect _ _ _ r) as [[[wr l] tk]|] eqn:Hr; [|discriminate].
    destruct (effects _ _ _ _ rest) as [effs'|] eqn:He; [|discriminate].
    intros [= <-].
    rewrite run_from_cons, (export_record_effect _ _ _ files wr l tk Hd Hr).
    rewrite (IH (S idx) _ (write_file files wr) effs') by (world_simpl; auto).
    world_simpl. rewrite !fmap_cons, <- app_assoc.
    cbn [foldl sum_list sum_list_with effect_write effect_ticks effect_line
         fst snd app]. rewrite Nat.add_assoc. reflexivity.
Qed.

Lemma export_data_effects w effs :
  effects (clock w) (length (lifelogs w)) 0 (ticks w) (lifelogs w) = Some effs ->
  export_data w =
    (mk_world (lifelogs w)
       (Some (foldl write_file (default ∅ (export_dir w)) (effect_write <$> effs)))
       (stdout w ++ header_lines (lifelogs w) ++ (effect_line <$> effs))
       (clock w) (ticks w + sum_list (effect_ticks <$> effs)) (environ w),
     Return tt).
Proof.
  intros He. rewrite export_data_run.
  rewrite (run_from_effects _ 0 _ (default ∅ (export_dir w)) effs)
    by (world_simpl; auto).
  world_simpl. rewrite <- app_assoc. reflexivity.
Qed.

Lemma effects_length clk n rs : forall idx tick effs,
  effects clk n idx tick rs = Some effs -> length effs = length rs.
Proof.
  induction rs as [|r rest IH]; intros idx tick effs.
  - intros [= <-]. reflexivity.
  - rewrite effects_cons.
    destruct (record_effect _ _ _ r) as [[[wr l] tk]|]; [|discriminate].
    destruct (effects _ _ _ _ rest) as [effs'|] eqn:He; [|discriminate].
    intros [= <-]. simpl. f_equal. eapply IH, He.
Qed.

End Effects.
(** ** Reading a file back *)

Lemma prefix_app (s t : string) : String.prefix s (s +:+ t) = true.
Proof.
  induction s as [|a s IH]; simpl; [now destruct t|].
  destruct (ascii_dec a a); [exact IH | congruence].
Qed.

Lemma substring_all (t : string) : substring 0 (String.length t) t = t.
Proof. induction t as [|a t IH]; simpl; [reflexivity | now rewrite IH]. Qed.

Lemma substring_skip (s t : string) (m : nat) :
  substring (String.length s) m (s +:+ t) = substring 0 m t.
Proof. induction s as [|a s IH]; simpl; [reflexivity | exact IH]. Qed.

Lemma read_file_export (w : world) (files : gmap string string) (f : string) :
  export_dir w = Some files -> read_file w ("export/" +:+ f) = files !! f.
Proof.
  intros Hd. unfold read_file. rewrite Hd, prefix_app.
  change 7%nat with (String.length "export/").
  rewrite substring_skip, length_append.
  replace (String.length "export/" + String.length f - String.length "export/")%nat
    with (String.length f) by lia.
  now rewrite substring_all.
Qed.

(** * The claims *)

Section Claims.
Context {P : Platform}.

Lemma run_from_frame rs : forall idx w,
  lifelogs (fst (run_from idx rs w)) = lifelogs w /\
  snd (run_from idx rs w) <> OutOfFuel.
Proof.
  induction rs as [|r rest IH]; intros idx w; [split; [reflexivity|discriminate]|].
  rewrite run_from_cons.
  pose proof (export_record_frame (S idx) r w) as Hframe.
  destruct (export_record (S idx) r w) as [w' [[]|e|]];
    destruct Hframe as (Hl & _ & _ & _ & Hfuel & _);
    try (split; [exact Hl|discriminate]).
  - destruct (IH (S idx) w') as [Hl' Hfuel']. split; [congruence|exact Hfuel'].
  - now destruct Hfuel.
Qed.

(** The rounds allotted to the loop always suffice: [export_data]
    returns or raises, whatever the world it starts in. *)
Lemma export_data_bound_suffices (w : world) : snd (export_data w) <> OutOfFuel.
Proof. rewrite export_data_run. apply run_from_frame. Qed.

(** C9: [export_data] never changes the list of lifelogs it is given:
    whatever the world it starts in, and however the call ends, every
    lifelog of the list is afterwards the mapping it was before. *)
Theorem export_data_leaves_lifelogs (w : world) :
  lifelogs (fst (export_data w)) = lifelogs w /\
  forall k, lifelogs (fst (export_data w)) !! k = lifelogs w !! k.
Proof.
  assert (H : lifelogs (fst (export_data w)) = lifelogs w)
    by (rewrite export_data_run, (proj1 (run_from_frame _ _ _)); reflexivity).
  split; [exact H|]. intros k. now rewrite H.
Qed.

(** C8: on the empty list [export_data] creates the [export] directory
    when it is absent, keeps whatever the directory held, writes no
    file and prints only its opening line; and when the record source
    answers [main] with the empty list, [main] ends normally with
    "Export complete!" as the last line, printed after the export. *)
Theorem empty_list_export (w w1 : world) :
  get_lifelogs (environ w !! "LIMITLESS_API_KEY") "asc" None
    (set_stdout (stdout w ++ [LFetching]) w) = (w1, Return []) ->
  (forall w0, lifelogs w0 = [] ->
     export_data w0 =
       (mk_world [] (Some (default ∅ (export_dir w0)))
          (stdout w0 ++ [LExporting 0 "export"])
          (clock w0) (ticks w0) (environ w0),
        Return tt)) /\
  main w =
    (mk_world [] (Some (default ∅ (export_dir w1)))
       (stdout w1 ++ [LExporting 0 "export"; LComplete])
       (clock w1) (ticks w1) (environ w1),
     Return tt).
Proof.
  intros Hfetch.
  assert (Hempty : forall w0, lifelogs w0 = [] ->
     export_data w0 =
       (mk_world [] (Some (default ∅ (export_dir w0)))
          (stdout w0 ++ [LExporting 0 "export"])
          (clock w0) (ticks w0) (environ w0),
        Return tt)).
  { intros w0 H0. rewrite export_data_run, H0. reflexivity. }
  split; [exact Hempty|].
  unfold main. rewrite bind_print by reflexivity.
  unfold io_bind at 1. unfold getenv at 1. world_simpl. cbv beta iota.
  unfold io_bind at 1. rewrite Hfetch.
  unfold io_bind at 1. cbv beta iota.
  unfold io_bind at 1.
  rewrite (Hempty (set_lifelogs [] w1)) by reflexivity.
  rewrite print_line by reflexivity. world_simpl.
  rewrite <- app_assoc. reflexivity.
Qed.



(** C6: when the loop body derives a file name for a lifelog whose
    [markdown] entry is text that UTF-8 can encode, or is missing, the
    file of that name afterwards holds exactly that text, the empty
    string when the entry is missing, whatever a file of that name
    held before; no other file of the directory changes. *)
Theorem written_content_is_markdown (i : nat) (r : lifelog) (w : world)
    (files : gmap string string) (f t : string) :
  export_dir w = Some files ->
  (r !! "markdown" = Some (PStr t) \/ (r !! "markdown" = None /\ t = "")) ->
  encodable t = true ->
  (if truthy (dict_get r "startTime")
   then timestamp_filename r
   else fallback_filename (clock w (ticks w)) i) = inr f ->
  exists w', export_record i r w = (w', Return tt) /\
             export_dir w' = Some (<[f := t]> files) /\
             read_file w' ("export/" +:+ f) = Some t.
Proof.
  intros Hd Hmd Henc Hf.
  assert (Hm : write_outcome r = inr t).
  { apply write_outcome_text. split; [|exact Henc].
    unfold markdown_text. destruct Hmd as [-> | [-> ->]]; reflexivity. }
  assert (Hread : forall w', export_dir w' = Some (<[f := t]> files) ->
                             read_file w' ("export/" +:+ f) = Some t).
  { intros w' Hw'. rewrite (read_file_export w' _ f Hw'). apply lookup_insert_eq. }
  destruct (truthy (dict_get r "startTime")) eqn:Ht.
  - eexists. split; [apply (export_record_exported i r w files f t); assumption|].
    split; [reflexivity|]. apply Hread. reflexivity.
  - eexists. split; [apply (export_record_fallback i r w files f t); assumption|].
    split; [reflexivity|]. apply Hread. reflexivity.
Qed.

(** Whatever becomes of the write and of the line, a round of the
    timestamp branch that has derived a name leaves a file of that
    name. *)
Lemma export_record_opens i r w files f :
  truthy (dict_get r "startTime") = true ->
  timestamp_filename r = inr f ->
  export_dir w = Some files ->
  exists content,
    export_dir (fst (export_record i r w)) = Some (<[f := content]> files).
Proof.
  intros Ht Hf Hd.
  destruct (write_outcome r) as [e|t] eqn:Hm.
  - destruct (printable (dict_get r "startTime")) eqn:Hp.
    + rewrite (export_record_write_error i r w files f e Ht Hf Hm Hd Hp). eauto.
    + rewrite (export_record_write_error_unprintable i r w files f e Ht Hf Hm Hd Hp).
      eauto.
  - rewrite (export_record_exported i r w files f t Ht Hf Hm Hd). eauto.
Qed.


(** *** Every round, in order *)


Lemma record_effect_ticks i n now r wr l tk :
  record_effect i n now r = Some (wr, l, tk) ->
  tk = if truthy (dict_get r "startTime") then O else 1%nat.
Proof.
  intros Hr.
  destruct (record_effect_cases _ _ _ _ _ _ _ Hr)
    as [(Ht & _ & e & _ & _ & _ & ->)
       |[(Ht & f & t & _ & _ & _ & _ & ->)
        |[(Ht & _ & f & e & _ & _ & _ & _ & ->)
         |(Ht & f & t & _ & _ & _ & _ & ->)]]];
    now rewrite Ht.
Qed.

Lemma record_effect_defined i n now r :
  (truthy (dict_get r "startTime") = true ->
   printable (dict_get r "startTime") = true) ->
  (truthy (dict_get r "startTime") = false ->
   (exists t, write_outcome r = inr t) /\
   exists c, astimezone local_utcoffset now chicago_tz = inr c) ->
  exists eff, record_effect i n now r = Some eff.
Proof.
  intros Hprint Hsafe. rewrite record_effect_eq.
  destruct (truthy (dict_get r "startTime")) eqn:Ht.
  - specialize (Hprint eq_refl).
    destruct (timestamp_filename r) as [e|f] eqn:Hf.
    + rewrite printed_encodable by exact Hprint. eauto.
    + destruct (write_outcome r) as [e|t].
      * rewrite printed_encodable by exact Hprint. eauto.
      * rewrite printed_encodable
          by exact (timestamp_filename_encodable r f Hf). eauto.
  - destruct (Hsafe eq_refl) as [[t Hm] [c Hc]].
    assert (Hf : fallback_filename now i
                 = inr (strftime year_padded c +:+ "-" +:+ pretty i +:+ ".md"))
      by (apply fallback_filename_inr; eauto).
    rewrite Hf, Hm.
    rewrite printed_encodable
      by exact (fallback_filename_encodable now i _ Hf). eauto.
Qed.

Lemma effects_defined clk n rs : forall idx tick,
  (forall r, r ∈ rs -> truthy (dict_get r "startTime") = true ->
             printable (dict_get r "startTime") = true) ->
  (forall r, r ∈ rs -> truthy (dict_get r "startTime") = false ->
             exists t, write_outcome r = inr t) ->
  (forall t, (tick <= t < tick + length rs)%nat ->
             exists c, astimezone local_utcoffset (clk t) chicago_tz = inr c) ->
  exists effs, effects clk n idx tick rs = Some effs.
Proof.
  induction rs as [|r rest IH]; intros idx tick Hprint Htext Hclock;
    [simpl; eauto|].
  rewrite effects_cons.
  destruct (record_effect_defined (S idx) n (clk tick) r) as [[[wr l] tk] Hr].
  { apply Hprint. left. }
  { intros Ht. split; [apply Htext; [left|exact Ht]|].
    apply Hclock. simpl. lia. }
  rewrite Hr. pose proof (record_effect_ticks _ _ _ _ _ _ _ Hr) as Htk.
  assert (tk <= 1)%nat by (destruct (truthy _); lia).
  destruct (IH (S idx) (tick + tk)%nat) as [effs He].
  - intros r' Hin. apply Hprint. now right.
  - intros r' Hin. apply Htext. now right.
  - intros t Hrange. apply Hclock. simpl. lia.
  - rewrite He. eauto.
Qed.

(** On a world whose lifelogs can all be exported, the loop has a
    summary. *)
Lemma exportable_effects w :
  exportable w ->
  exists effs,
    effects (clock w) (length (lifelogs w)) 0 (ticks w) (lifelogs w) = Some effs.
Proof. intros (Hprint & Htext & Hclock). now apply effects_defined. Qed.

Lemma effects_lookup clk n rs : forall idx tick effs k r,
  effects clk n idx tick rs = Some effs ->
  rs !! k = Some r ->
  exists wr l tk now,
    effs !! k = Some (wr, l, tk) /\
    record_effect (S (idx + k)) n now r = Some (wr, l, tk).
Proof.
  induction rs as [|r0 rest IH]; intros idx tick effs k r; [discriminate|].
  rewrite effects_cons.
  destruct (record_effect _ _ _ r0) as [[[wr l] tk]|] eqn:Hr; [|discriminate].
  destruct (effects _ _ _ _ rest) as [effs'|] eqn:He; [|discriminate].
  intros [= <-] Hk. destruct k as [|k].
  - injection Hk as <-. exists wr, l, tk, (clk tick).
    rewrite Nat.add_0_r. auto.
  - destruct (IH _ _ _ k r He Hk) as (wr' & l' & tk' & now & Hl & Hr').
    exists wr', l', tk', now. rewrite Nat.add_succ_r. auto.
Qed.


(** *** The names of the files *)

Lemma timestamp_filename_shape r f :
  timestamp_filename r = inr f ->
  exists c, valid_datetime c /\
            f = year_text year_padded (year c) +:+ clock_part c +:+ ".md".
Proof.
  intros Hf. apply timestamp_filename_inr in Hf as (st & c & _ & Hc & ->).
  destruct (astimezone_correct _ _ _ _ Hc) as (src & off & _ & _ & _ & Hvalid).
  exists c. split; [exact Hvalid|].
  now rewrite (strftime_eq _ c Hvalid), append_assoc.
Qed.

Lemma fallback_filename_shape now i f :
  fallback_filename now i = inr f ->
  exists c, valid_datetime c /\
            f = year_text year_padded (year c) +:+ clock_part c +:+
                "-" +:+ pretty i +:+ ".md".
Proof.
  intros Hf. apply fallback_filename_inr in Hf as (c & Hc & ->).
  destruct (astimezone_correct _ _ _ _ Hc) as (src & off & _ & _ & _ & Hvalid).
  exists c. split; [exact Hvalid|].
  now rewrite (strftime_eq _ c Hvalid), append_assoc.
Qed.

(** A name of the timestamp branch has five dashes, one of the
    fallback branch six. *)
Lemma stamp_names_differ padded c c' (i : nat) :
  valid_datetime c -> valid_datetime c' ->
  year_text padded (year c) +:+ clock_part c +:+ ".md"
  <> year_text padded (year c') +:+ clock_part c' +:+ "-" +:+ pretty i +:+ ".md".
Proof.
  intros Hv Hv' H.
  apply name_split in H as (_ & _ & H);
    [discriminate H | apply year_text_digits, Hv | apply year_text_digits, Hv'].
Qed.

Lemma fallback_names_inj padded c c' (i j : nat) :
  valid_datetime c -> valid_datetime c' ->
  year_text padded (year c) +:+ clock_part c +:+ "-" +:+ pretty i +:+ ".md"
  = year_text padded (year c') +:+ clock_part c' +:+ "-" +:+ pretty j +:+ ".md" ->
  i = j.
Proof.
  intros Hv Hv' H.
  apply name_split in H as (_ & _ & H);
    [| apply year_text_digits, Hv | apply year_text_digits, Hv'].
  injection H as H.
  change (pretty i +:+ ".md" = pretty j +:+ ".md") in H.
  apply app_inv_tail in H. exact (pretty_nat_inj _ _ H).
Qed.

Lemma record_effect_write i n now r wr l tk :
  record_effect i n now r = Some (wr, l, tk) ->
  (truthy (dict_get r "startTime") = true ->
   exists f, timestamp_filename r = inr f) ->
  exists f t, wr = Some (f, t) /\
    ((truthy (dict_get r "startTime") = true /\ timestamp_filename r = inr f) \/
     (truthy (dict_get r "startTime") = false /\
      fallback_filename now i = inr f)).
Proof.
  intros Hr Hparse.
  destruct (record_effect_cases _ _ _ _ _ _ _ Hr)
    as [(Ht & _ & e & Hf & _)
       |[(Ht & f & t & Hf & _ & -> & _)
        |[(Ht & _ & f & e & Hf & _ & -> & _)
         |(Ht & f & t & Hf & _ & -> & _)]]]; eauto 8.
  destruct (Hparse Ht) as [f Hf']. congruence.
Qed.

Lemma written_names_cons f t wrs :
  written_names (Some (f, t) :: wrs) = f :: written_names wrs.
Proof. reflexivity. Qed.

Lemma effects_writes clk n rs : forall idx tick effs,
  effects clk n idx tick rs = Some effs ->
  (forall r, r ∈ rs -> truthy (dict_get r "startTime") = true ->
             exists f, timestamp_filename r = inr f) ->
  exists names : list string,
    written_names (effect_write <$> effs) = names /\
    length names = length rs /\
    forall k r, rs !! k = Some r ->
      exists f, names !! k = Some f /\
        ((truthy (dict_get r "startTime") = true /\ timestamp_filename r = inr f) \/
         (truthy (dict_get r "startTime") = false /\
          exists now, fallback_filename now (S (idx + k)) = inr f)).
Proof.
  induction rs as [|r0 rest IH]; intros idx tick effs.
  - intros [= <-] _. exists []. repeat split. intros k r Hk. discriminate.
  - rewrite effects_cons.
    destruct (record_effect _ _ _ r0) as [[[wr l] tk]|] eqn:Hr; [|discriminate].
    destruct (effects _ _ _ _ rest) as [effs'|] eqn:He; [|discriminate].
    intros [= <-] Hparse.
    destruct (record_effect_write _ _ _ _ _ _ _ Hr) as (f & t & -> & Hshape).
    { apply Hparse. left. }
    destruct (IH _ _ _ He) as (names & Hnames & Hlen & Hk).
    { intros r' Hin. apply Hparse. now right. }
    exists (f :: names). split; [|split].
    + rewrite fmap_cons.
      change (effect_write (Some (f, t), l, tk)) with (Some (f, t)).
      rewrite written_names_cons. now rewrite Hnames.
    + simpl. now rewrite Hlen.
    + intros [|k] r Hr0.
      * injection Hr0 as <-. exists f. rewrite Nat.add_0_r.
        split; [reflexivity|]. destruct Hshape as [?|[? ?]]; eauto.
      * destruct (Hk k r Hr0) as (f' & Hf' & Hshape').
        exists f'. rewrite Nat.add_succ_r. auto.
Qed.

Lemma dom_foldl_write wrs : forall m : gmap string string,
  dom (foldl write_file m wrs) = dom m ∪ list_to_set (written_names wrs).
Proof.
  induction wrs as [|[[f t]|] wrs IH]; intros m.
  - simpl. now rewrite union_empty_r_L.
  - cbn [foldl write_file]. rewrite IH, dom_insert_L, written_names_cons.
    rewrite list_to_set_cons, (comm_L (∪) {[f]} (dom m)), <- (assoc_L (∪)).
    reflexivity.
  - cbn [foldl write_file]. rewrite IH. reflexivity.
Qed.

(** A name of the fallback branch is no name of the timestamp branch,
    and the index can be read off it. *)
Lemma fallback_name_apart now now' (i j : nat) r f :
  fallback_filename now i = inr f ->
  timestamp_filename r <> inr f /\
  (fallback_filename now' j = inr f -> i = j).
Proof.
  intros Hf. apply fallback_filename_shape in Hf as (c & Hv & ->). split.
  - intros Hr. apply timestamp_filename_shape in Hr as (c' & Hv' & Hr).
    exact (stamp_names_differ _ c' c i Hv' Hv (eq_sym Hr)).
  - intros Hj. apply fallback_filename_shape in Hj as (c' & Hv' & Hj).
    exact (fallback_names_inj _ c c' i j Hv Hv' Hj).
Qed.

(** C2, as the code has it: when every truthy [startTime] of the list
    parses and converts and, being a string, can be printed, every
    lifelog without one carries text that can be written (and the
    clock readings convert), and no two lifelogs with a truthy
    [startTime] derive the same file name, [export_data] returns
    normally having opened one file per lifelog, all of different
    names: the directory afterwards holds those files next to what it
    held, and exactly as many files as there are lifelogs when it was
    absent or empty. *)
Theorem one_file_per_record (w : world) :
  (forall r, r ∈ lifelogs w -> truthy (dict_get r "startTime") = true ->
             exists f, timestamp_filename r = inr f) ->
  exportable w ->
  (forall p q r1 r2 f,
      lifelogs w !! p = Some r1 -> lifelogs w !! q = Some r2 ->
      truthy (dict_get r1 "startTime") = true ->
      truthy (dict_get r2 "startTime") = true ->
      timestamp_filename r1 = inr f -> timestamp_filename r2 = inr f ->
      p = q) ->
  exists (w' : world) (files' : gmap string string) (names : list string),
    export_data w = (w', Return tt) /\
    export_dir w' = Some files' /\
    length names = length (lifelogs w) /\
    NoDup names /\
    dom files' = dom (default ∅ (export_dir w)) ∪ list_to_set names /\
    (default ∅ (export_dir w) = ∅ -> size files' = length (lifelogs w)).
Proof.
  intros Hparse Hsafe Hdistinct.
  destruct (exportable_effects w Hsafe) as [effs He].
  destruct (effects_writes _ _ _ _ _ _ He Hparse) as (names & Hnames & Hlen & Hk).
  assert (Hnodup : NoDup names).
  { apply NoDup_alt. intros p q f Hp Hq.
    destruct (lookup_lt_is_Some_2 (lifelogs w) p) as [r1 Hr1];
      [rewrite <- Hlen; eapply lookup_lt_Some, Hp|].
    destruct (lookup_lt_is_Some_2 (lifelogs w) q) as [r2 Hr2];
      [rewrite <- Hlen; eapply lookup_lt_Some, Hq|].
    destruct (Hk p r1 Hr1) as (f1 & Hf1 & Hs1).
    destruct (Hk q r2 Hr2) as (f2 & Hf2 & Hs2).
    assert (f1 = f) by congruence. assert (f2 = f) by congruence. subst f1 f2.
    destruct Hs1 as [[Ht1 Hn1]|[Ht1 [now1 Hn1]]];
      destruct Hs2 as [[Ht2 Hn2]|[Ht2 [now2 Hn2]]].
    - exact (Hdistinct p q r1 r2 f Hr1 Hr2 Ht1 Ht2 Hn1 Hn2).
    - destruct (fallback_name_apart now2 now2 _ 0 r1 f Hn2) as [Hne _].
      contradiction.
    - destruct (fallback_name_apart now1 now1 _ 0 r2 f Hn1) as [Hne _].
      contradiction.
    - destruct (fallback_name_apart now1 now2 _ (S (0 + q)) r1 f Hn1) as [_ Hi].
      specialize (Hi Hn2). lia. }
  eexists. exists (foldl write_file (default ∅ (export_dir w)) (effect_write <$> effs)).
  exists names.
  split; [apply (export_data_effects w effs He)|].
  split; [reflexivity|]. split; [exact Hlen|]. split; [exact Hnodup|].
  assert (Hdom : dom (foldl write_file (default ∅ (export_dir w))
                        (effect_write <$> effs))
                 = dom (default ∅ (export_dir w)) ∪ list_to_set names)
    by (rewrite dom_foldl_write, Hnames; reflexivity).
  split; [exact Hdom|].
  intros Hempty. rewrite <- size_dom, Hdom, Hempty, dom_empty_L, union_empty_l_L.
  rewrite size_list_to_set by exact Hnodup. exact Hlen.
Qed.

(** *** Running the export again *)

Lemma foldl_write_agree wrs : forall m m' : gmap string string,
  (forall k, m !! k = m' !! k \/ exists t, Some (k, t) ∈ wrs) ->
  foldl write_file m wrs = foldl write_file m' wrs.
Proof.
  induction wrs as [|wr wrs IH]; intros m m' Hagree.
  - simpl. apply map_eq. intros k.
    destruct (Hagree k) as [H|[t H]]; [exact H|]. now apply elem_of_nil in H.
  - cbn [foldl]. apply IH. intros k.
    destruct (Hagree k) as [H|[t H]].
    + destruct wr as [[f t]|]; [|auto]. simpl.
      destruct (decide (f = k)) as [->|Hne].
      * left. now rewrite !lookup_insert_eq.
      * left. now rewrite !lookup_insert_ne.
    + apply elem_of_cons in H as [<-|H]; [|eauto].
      left. simpl. now rewrite !lookup_insert_eq.
Qed.

Lemma foldl_write_lookup wrs : forall (m : gmap string string) k,
  foldl write_file m wrs !! k = m !! k \/ exists t, Some (k, t) ∈ wrs.
Proof.
  induction wrs as [|wr wrs IH]; intros m k; [now left|].
  cbn [foldl]. destruct (IH (write_file m wr) k) as [H|[t H]].
  - destruct wr as [[f t]|]; [|now left]. cbn [write_file] in *.
    destruct (decide (f = k)) as [->|Hne].
    + right. exists t. left.
    + left. now rewrite H, lookup_insert_ne.
  - right. exists t. now right.
Qed.

(** Writing the same files again changes nothing. *)
Lemma foldl_write_idem (m : gmap string string) wrs :
  foldl write_file (foldl write_file m wrs) wrs = foldl write_file m wrs.
Proof. apply foldl_write_agree. intros k. apply foldl_write_lookup. Qed.

(** The rounds of lifelogs with a truthy start time do not depend on
    the clock. *)
Lemma effects_truthy clk clk' n rs : forall idx tick tick',
  (forall r, r ∈ rs -> truthy (dict_get r "startTime") = true) ->
  effects clk n idx tick rs = effects clk' n idx tick' rs.
Proof.
  induction rs as [|r rest IH]; intros idx tick tick' Ht; [reflexivity|].
  rewrite !effects_cons, !record_effect_eq, (Ht r) by left.
  assert (Hrest : forall r', r' ∈ rest -> truthy (dict_get r' "startTime") = true)
    by (intros r' Hin; apply Ht; now right).
  destruct (timestamp_filename r) as [e|f]; [|destruct (write_outcome r)];
    (destruct (printed _ _ _) as [[[wr l] tk]|]; [|reflexivity]);
    now rewrite (IH (S idx) (tick + tk)%nat (tick' + tk)%nat Hrest).
Qed.

Lemma effects_defined_truthy clk n rs : forall idx tick,
  (forall r, r ∈ rs ->
             truthy (dict_get r "startTime") = true /\
             printable (dict_get r "startTime") = true) ->
  exists effs, effects clk n idx tick rs = Some effs.
Proof.
  induction rs as [|r rest IH]; intros idx tick Hall; [simpl; eauto|].
  rewrite effects_cons.
  destruct (Hall r ltac:(left)) as [Ht Hp].
  destruct (record_effect_defined (S idx) n (clk tick) r) as [[[wr l] tk] Hr].
  { intros _. exact Hp. }
  { intros Hf. rewrite Ht in Hf. discriminate. }
  rewrite Hr.
  destruct (IH (S idx) (tick + tk)%nat) as [effs He].
  - intros r' Hin. apply Hall. now right.
  - rewrite He. eauto.
Qed.

(** C4, as the code has it: on a list in which every lifelog has a
    truthy [startTime] that can be printed, so that no name is taken
    from the clock and no line fails to print, running [export_data]
    a second time on what the first run left ends normally like the
    first and leaves the directory exactly as the first run left it:
    the same files with the same content. *)
Theorem export_twice_same_directory (w : world) :
  (forall r, r ∈ lifelogs w ->
             truthy (dict_get r "startTime") = true /\
             printable (dict_get r "startTime") = true) ->
  exists w1 w2 : world,
    export_data w = (w1, Return tt) /\
    export_data w1 = (w2, Return tt) /\
    export_dir w2 = export_dir w1.
Proof.
  intros Hall.
  assert (Ht : forall r, r ∈ lifelogs w -> truthy (dict_get r "startTime") = true)
    by (intros r Hr; apply (Hall r Hr)).
  destruct (effects_defined_truthy (clock w) (length (lifelogs w)) (lifelogs w)
              0 (ticks w) Hall) as [effs He].
  pose proof (export_data_effects w effs He) as Hrun1.
  set (w1 := mk_world (lifelogs w)
               (Some (foldl write_file (default ∅ (export_dir w))
                        (effect_write <$> effs)))
               (stdout w ++ header_lines (lifelogs w) ++ (effect_line <$> effs))
               (clock w) (ticks w + sum_list (effect_ticks <$> effs))
               (environ w)) in *.
  assert (He1 : effects (clock w1) (length (lifelogs w1)) 0 (ticks w1) (lifelogs w1)
                = Some effs).
  { subst w1. world_simpl. rewrite <- He.
    apply (effects_truthy _ _ _ _ 0 _ _ Ht). }
  pose proof (export_data_effects w1 effs He1) as Hrun2.
  exists w1. eexists. split; [exact Hrun1|]. split; [exact Hrun2|].
  subst w1. world_simpl. cbn [default from_option id].
  now rewrite foldl_write_idem.
Qed.

End Claims.
(** * The scenarios, on the concrete platform *)

(** Closed equations are settled by evaluation. *)
Ltac by_evaluation :=
  cbv zeta; repeat apply conj;
  match goal with |- _ = ?r => vm_cast_no_check (@eq_refl _ r) end.

(** C7: exporting the single lifelog of scenario A, whose [startTime]
    is 2025-03-18T15:41:44-05:00, ends normally and leaves exactly one
    file in the [export] directory, [export/2025-03-18-15-41-44.md],
    holding [Hello]: Chicago is five hours behind UTC on that day, so
    the wall-clock time is unchanged. *)
Theorem scenario_A_exported :
  let w' := fst (@export_data (test_platform []) (fresh_world [scenario_A] eight_pm)) in
  snd (@export_data (test_platform []) (fresh_world [scenario_A] eight_pm)) = Return tt /\
  export_dir w' = Some {[ "2025-03-18-15-41-44.md" := "Hello" ]} /\
  read_file w' "export/2025-03-18-15-41-44.md" = Some "Hello".
Proof. by_evaluation. Qed.


(** C2 fails on the code: for the two lifelogs of scenario A and of
    ["not-a-date"], only one of which has a valid [startTime], so that
    no two valid names can collide, [export_data] ends normally with
    one file in the directory for two input lifelogs. *)
Lemma two_records_one_file :
  let w := fresh_world [scenario_A; not_a_date] eight_pm in
  let w' := fst (@export_data (test_platform []) w) in
  snd (@export_data (test_platform []) w) = Return tt /\
  length (lifelogs w) = 2%nat /\
  (size <$> export_dir w') = Some 1%nat /\
  export_dir w' = Some {[ "2025-03-18-15-41-44.md" := "Hello" ]}.
Proof. by_evaluation. Qed.


(** C4 fails on the code: for the single lifelog without [startTime],
    the first run, at 15:00:00 Chicago time, writes
    [2025-03-18-15-00-00-1.md]; the second run, one second later, writes
    [2025-03-18-15-00-01-1.md] next to it.  The directory after two runs
    holds two files and is not the directory after one run. *)
Lemma second_run_adds_a_file :
  let w1 := fst (@export_data (test_platform []) (fresh_world [no_time] eight_pm)) in
  let w2 := fst (@export_data (test_platform []) w1) in
  export_dir w1 = Some {[ "2025-03-18-15-00-00-1.md" := "No time" ]} /\
  export_dir w2 = Some {[ "2025-03-18-15-00-00-1.md" := "No time";
                          "2025-03-18-15-00-01-1.md" := "No time" ]} /\
  export_dir w2 <> export_dir w1.
Proof.
  cbv zeta. split; [by_evaluation|]. split; [by_evaluation|].
  intros H. apply (f_equal (fmap size)) in H. vm_compute in H. discriminate H.
Qed.


(** * The theorems at work on concrete data *)

(** Every theorem above that rests on hypotheses is applied to the data
    of a scenario, its hypotheses being settled by evaluation. *)


Lemma empty_list_export_witness :
  let w := fresh_world [] eight_pm in
  let w1 := set_stdout (stdout w ++ [LFetching]) w in
  @main (test_platform []) w =
    (mk_world [] (Some (default ∅ (export_dir w1)))
       (stdout w1 ++ [LExporting 0 "export"; LComplete])
       (clock w1) (ticks w1) (environ w1),
     Return tt).
Proof.
  cbv zeta.
  apply (@empty_list_export (test_platform []) (fresh_world [] eight_pm)
           (set_stdout (stdout (fresh_world [] eight_pm) ++ [LFetching])
              (fresh_world [] eight_pm))).
  reflexivity.
Defined.


Lemma written_content_is_markdown_witness :
  exists w',
    @export_record (test_platform []) 1 scenario_A (ready_world [scenario_A] eight_pm)
      = (w', Return tt) /\
    export_dir w' = Some (<["2025-03-18-15-41-44.md" := "Hello"]> ∅) /\
    read_file w' ("export/" +:+ "2025-03-18-15-41-44.md") = Some "Hello".
Proof.
  apply (@written_content_is_markdown (test_platform []) 1 scenario_A
           (ready_world [scenario_A] eight_pm) ∅ "2025-03-18-15-41-44.md" "Hello").
  - by_evaluation.
  - left. by_evaluation.
  - by_evaluation.
  - by_evaluation.
Defined.



Lemma one_file_per_record_witness :
  let w := fresh_world [scenario_A; no_time] eight_pm in
  exists (w' : world) (files' : gmap string string) (names : list string),
    @export_data (test_platform []) w = (w', Return tt) /\
    export_dir w' = Some files' /\
    length names = length (lifelogs w) /\
    NoDup names /\
    dom files' = dom (default ∅ (export_dir w)) ∪ list_to_set names /\
    (default ∅ (export_dir w) = ∅ -> size files' = length (lifelogs w)).
Proof.
  cbv zeta.
  apply (@one_file_per_record (test_platform [])
           (fresh_world [scenario_A; no_time] eight_pm)).
  - intros r Hr Ht. apply list_elem_of_In in Hr. simpl in Hr.
    destruct Hr as [<-|[<-|[]]].
    + exists "2025-03-18-15-41-44.md". by_evaluation.
    + vm_compute in Ht. discriminate Ht.
  - split; [|split].
    + intros r Hr _. apply list_elem_of_In in Hr. simpl in Hr.
      destruct Hr as [<-|[<-|[]]]; by_evaluation.
    + intros r Hr Ht. apply list_elem_of_In in Hr. simpl in Hr.
      destruct Hr as [<-|[<-|[]]].
      * vm_compute in Ht. discriminate Ht.
      * exists "No time". by_evaluation.
    + intros t Ht. simpl in Ht.
      destruct t as [|[|t]]; try lia; eexists; vm_compute; reflexivity.
  - intros p q r1 r2 f Hp Hq Ht1 Ht2 _ _.
    destruct p as [|[|p]]; destruct q as [|[|q]]; try reflexivity;
      simpl in Hp, Hq; try discriminate;
      injection Hp as <-; injection Hq as <-;
      vm_compute in Ht1, Ht2; discriminate.
Defined.

Lemma export_twice_same_directory_witness :
  exists w1 w2 : world,
    @export_data (test_platform []) (fresh_world [scenario_A] eight_pm)
      = (w1, Return tt) /\
    @export_data (test_platform []) w1 = (w2, Return tt) /\
    export_dir w2 = export_dir w1.
Proof.
  apply (@export_twice_same_directory (test_platform [])
           (fresh_world [scenario_A] eight_pm)).
  intros r Hr. apply list_elem_of_In in Hr. simpl in Hr.
  destruct Hr as [<-|[]]. by_evaluation.
Defined.

(** * Further properties of the exporter *)

Section Further.
Context {P : Platform}.

(** ** Values other than text under [markdown] *)


Lemma run_from_app pre : forall idx rest w,
  run_from idx (pre ++ rest) w =
  match run_from idx pre w with
  | (w', Return _) => run_from (idx + length pre) rest w'
  | (w', Raised e) => (w', Raised e)
  | (w', OutOfFuel) => (w', OutOfFuel)
  end.
Proof.
  induction pre as [|r pre IH]; intros idx rest w.
  - simpl. rewrite Nat.add_0_r. reflexivity.
  - change ((r :: pre) ++ rest)%list with (r :: (pre ++ rest))%list.
    rewrite !run_from_cons.
    destruct (export_record (S idx) r w) as [w' [[]|e|]]; try reflexivity.
    rewrite IH. simpl length. rewrite Nat.add_succ_r. reflexivity.
Qed.

(** X2: the fallback branch has no handler.  When the lifelogs before
    position [length pre] are exported, none of their rounds raising,
    as their summaries [effs] say, and
    the next one has no truthy start time and a [markdown] value that
    is not a string, [TypeError] leaves [export_data]: the file named
    from the clock and the index is left empty, no line is printed for
    that lifelog, and the lifelogs after it are not processed. *)
Theorem fallback_write_error_aborts (w : world) (pre post : list lifelog)
    (r : lifelog) (effs : list (option (string * string) * line * nat))
    (c : datetime) (v : pyval) :
  lifelogs w = (pre ++ r :: post)%list ->
  effects (clock w) (length (lifelogs w)) 0 (ticks w) pre = Some effs ->
  truthy (dict_get r "startTime") = false ->
  r !! "markdown" = Some v ->
  (forall s, v <> PStr s) ->
  astimezone local_utcoffset
    (clock w (ticks w + sum_list (effect_ticks <$> effs))%nat) chicago_tz = inr c ->
  export_data w =
    (mk_world (lifelogs w)
       (Some (<[strftime year_padded c +:+ "-" +:+ pretty (S (length pre)) +:+ ".md" := ""]>
                (foldl write_file (default ∅ (export_dir w)) (effect_write <$> effs))))
       (stdout w ++ header_lines (lifelogs w) ++ (effect_line <$> effs))
       (clock w) (S (ticks w + sum_list (effect_ticks <$> effs))) (environ w),
     Raised TypeError).
Proof.
  intros Hl He Ht Hv Hs Hc.
  assert (Hm : write_outcome r = inl TypeError).
  { unfold write_outcome, markdown_text. rewrite Hv.
    destruct v as [| | |s| |]; try reflexivity. now destruct (Hs s). }
  rewrite export_data_run. rewrite Hl at 1. rewrite run_from_app.
  rewrite (run_from_effects pre 0 _ (default ∅ (export_dir w)) effs)
    by (world_simpl; auto).
  rewrite run_from_cons.
  rewrite (export_record_fallback_refused _ r _
             (foldl write_file (default ∅ (export_dir w)) (effect_write <$> effs))
             (strftime year_padded c +:+ "-" +:+ pretty (S (length pre)) +:+ ".md")
             TypeError Ht);
    [| apply fallback_filename_inr; world_simpl; eauto | exact Hm | reflexivity].
  world_simpl. rewrite <- app_assoc. reflexivity.
Qed.

(** ** Two lifelogs, one name *)

(** Of the writes made to one name, the last one decides what the file
    holds. *)
Lemma foldl_write_last wrs : forall (m : gmap string string) q f t,
  wrs !! q = Some (Some (f, t)) ->
  (forall q' t', (q < q')%nat -> wrs !! q' <> Some (Some (f, t'))) ->
  foldl write_file m wrs !! f = Some t.
Proof.
  induction wrs as [|wr wrs IH]; intros m q f t Hq Hlater; [discriminate|].
  destruct q as [|q]; simpl in Hq.
  - injection Hq as ->. simpl.
    destruct (foldl_write_lookup wrs (<[f := t]> m) f) as [->|[t' Hin]].
    + apply lookup_insert_eq.
    + apply list_elem_of_lookup in Hin as [q' Hq'].
      destruct (Hlater (S q') t'); [lia | exact Hq'].
  - simpl. apply (IH _ q); [exact Hq|].
    intros q' t' Hlt. apply (Hlater (S q') t'). lia.
Qed.

(** X3: when two or more lifelogs derive the same file name from their
    start times, the file ends up with what the last of them left in
    it: its text, or nothing when its text could not be written.  Each
    [open(..., "w")] empties what the earlier one wrote.  No lifelog
    of the fallback branch can take the name, since its name carries
    the index. *)
Theorem last_lifelog_wins (w : world) (q : nat) (r : lifelog) (f : string) :
  exportable w ->
  lifelogs w !! q = Some r ->
  truthy (dict_get r "startTime") = true ->
  timestamp_filename r = inr f ->
  (forall q' r', (q < q')%nat -> lifelogs w !! q' = Some r' ->
                 truthy (dict_get r' "startTime") = true ->
                 timestamp_filename r' <> inr f) ->
  exists (w' : world) (files' : gmap string string),
    export_data w = (w', Return tt) /\
    export_dir w' = Some files' /\
    files' !! f = Some (match write_outcome r with inr t => t | inl _ => "" end).
Proof.
  intros Hsafe Hq Ht Hf Hlater.
  destruct (exportable_effects w Hsafe) as [effs He].
  eexists _, _. split; [exact (export_data_effects w effs He)|].
  split; [reflexivity|].
  apply (foldl_write_last _ _ q).
  - destruct (effects_lookup _ _ _ _ _ _ _ _ He Hq) as (wr & l & tk & now & Hk & Hr).
    rewrite list_lookup_fmap, Hk. simpl. unfold effect_write. simpl.
    destruct (record_effect_cases _ _ _ _ _ _ _ Hr)
      as [(_ & _ & e & Hf' & _)
         |[(_ & f' & t & Hf' & Hm & -> & _)
          |[(_ & _ & f' & e & Hf' & Hm & -> & _)
           |(Ht' & _)]]]; try congruence.
    + rewrite Hm. congruence.
    + rewrite Hm. congruence.
  - intros q' t' Hlt Hq'.
    rewrite list_lookup_fmap in Hq'.
    destruct (effs !! q') as [[[wr' l'] tk']|] eqn:Hk'; [|discriminate].
    simpl in Hq'. unfold effect_write in Hq'. simpl in Hq'.
    injection Hq' as ->.
    assert (Hlen : (q' < length (lifelogs w))%nat).
    { rewrite <- (effects_length _ _ _ _ _ _ He). eapply lookup_lt_Some, Hk'. }
    destruct (lookup_lt_is_Some_2 _ _ Hlen) as [r' Hr'].
    destruct (effects_lookup _ _ _ _ _ _ _ _ He Hr')
      as (wr & l & tk & now & Hk & Hrec).
    rewrite Hk' in Hk. injection Hk as <- <- <-.
    destruct (record_effect_cases _ _ _ _ _ _ _ Hrec)
      as [(_ & _ & e & _ & Hwr & _)
         |[(Ht' & f' & t & Hf' & _ & Hwr & _)
          |[(Ht' & _ & f' & e & Hf' & _ & Hwr & _)
           |(Ht' & f' & t & Hf' & _ & Hwr & _)]]].
    + discriminate.
    + apply (Hlater q' r' Hlt Hr' Ht'). congruence.
    + apply (Hlater q' r' Hlt Hr' Ht'). congruence.
    + injection Hwr as -> _.
      destruct (fallback_name_apart now now _ 0 r f' Hf') as [Hne _].
      contradiction.
Qed.

(** ** What is already in the directory *)

Lemma keeps_files_refl files : keeps_files files files.
Proof. split; [reflexivity | auto]. Qed.

Lemma keeps_files_trans f1 f2 f3 :
  keeps_files f1 f2 -> keeps_files f2 f3 -> keeps_files f1 f3.
Proof.
  intros [Hd1 Hk1] [Hd2 Hk2]. split.
  - etransitivity; eassumption.
  - intros f Hf. rewrite (Hk2 f Hf). apply Hk1, Hf.
Qed.

Lemma keeps_files_insert files s t :
  keeps_files files (<[s +:+ ".md" := t]> files).
Proof.
  split.
  - rewrite dom_insert_L. apply union_subseteq_r.
  - intros f Hf. apply lookup_insert_ne. intros <-. exact (Hf s eq_refl).
Qed.

(** One round of the loop writes to names ending in [.md] only, and
    removes nothing. *)
Lemma export_record_keeps i r w files :
  export_dir w = Some files ->
  exists files', export_dir (fst (export_record i r w)) = Some files' /\
                 keeps_files files files'.
Proof.
  intros Hd.
  destruct (truthy (dict_get r "startTime")) eqn:Ht.
  - destruct (timestamp_filename r) as [e|f] eqn:Hf.
    + exists files. split; [|apply keeps_files_refl].
      destruct (printable (dict_get r "startTime")) eqn:Hp.
      * rewrite (export_record_error i r w e Ht Hf Hp). exact Hd.
      * rewrite (export_record_error_unprintable i r w e Ht Hf Hp). exact Hd.
    + destruct (export_record_opens i r w files f Ht Hf Hd) as [content Ho].
      eexists. split; [exact Ho|].
      apply timestamp_filename_inr in Hf as (st & c & _ & _ & ->).
      apply keeps_files_insert.
  - destruct (fallback_filename (clock w (ticks w)) i) as [e|f] eqn:Hf.
    + rewrite (export_record_fallback_no_name i r w e Ht Hf).
      exists files. split; [exact Hd | apply keeps_files_refl].
    + assert (Hmd : exists s, f = s +:+ ".md").
      { apply fallback_filename_inr in Hf as (c & _ & ->).
        exists (strftime year_padded c +:+ "-" +:+ pretty i).
        now rewrite !append_assoc. }
      destruct Hmd as [s ->].
      destruct (write_outcome r) as [e|t] eqn:Hm.
      * rewrite (export_record_fallback_refused i r w files _ e Ht Hf Hm Hd).
        eexists. split; [reflexivity | apply keeps_files_insert].
      * rewrite (export_record_fallback i r w files _ t Ht Hf Hm Hd).
        eexists. split; [reflexivity | apply keeps_files_insert].
Qed.

Lemma run_from_keeps rs : forall idx w files,
  export_dir w = Some files ->
  exists files', export_dir (fst (run_from idx rs w)) = Some files' /\
                 keeps_files files files'.
Proof.
  induction rs as [|r rest IH]; intros idx w files Hd.
  - exists files. split; [exact Hd | apply keeps_files_refl].
  - rewrite run_from_cons.
    destruct (export_record_keeps (S idx) r w files Hd) as (files1 & Hd1 & Hk1).
    destruct (export_record (S idx) r w) as [w1 [[]|e|]]; simpl in Hd1;
      try (exists files1; split; [exact Hd1 | exact Hk1]).
    destruct (IH (S idx) w1 files1 Hd1) as (files' & Hd' & Hk').
    exists files'. split; [exact Hd' | exact (keeps_files_trans _ _ _ Hk1 Hk')].
Qed.

(** X4: however the export ends, normally or with an exception, the
    [export] directory exists afterwards, no file that was in it has
    been removed, and every file whose name does not end in [.md] holds
    what it held before: the loop only ever opens names it has built
    itself, and these end in [.md]. *)
Theorem export_keeps_other_files (w : world) :
  exists files' : gmap string string,
    export_dir (fst (export_data w)) = Some files' /\
    dom (default ∅ (export_dir w)) ⊆ dom files' /\
    forall f, (forall s, f <> s +:+ ".md") ->
              files' !! f = default ∅ (export_dir w) !! f.
Proof.
  rewrite export_data_run.
  destruct (run_from_keeps (lifelogs w) 0
              (mk_world (lifelogs w) (Some (default ∅ (export_dir w)))
                 (stdout w ++ header_lines (lifelogs w)) (clock w) (ticks w)
                 (environ w))
              (default ∅ (export_dir w)) eq_refl) as (files' & Hd & Hdom & Hk).
  exists files'. split; [exact Hd|]. split; [exact Hdom | exact Hk].
Qed.

(** ** The clock *)

Lemma effects_ticks clk n rs : forall idx tick effs,
  effects clk n idx tick rs = Some effs ->
  sum_list (effect_ticks <$> effs) = fallback_count rs.
Proof.
  induction rs as [|r rest IH]; intros idx tick effs.
  - intros [= <-]. reflexivity.
  - rewrite effects_cons.
    destruct (record_effect _ _ _ r) as [[[wr l] tk]|] eqn:Hr; [|discriminate].
    destruct (effects _ _ _ _ rest) as [effs'|] eqn:He; [|discriminate].
    intros [= <-]. rewrite fmap_cons. cbn [sum_list sum_list_with fallback_count].
    change (effect_ticks (wr, l, tk)) with tk.
    rewrite (record_effect_ticks _ _ _ _ _ _ _ Hr), (IH _ _ _ He).
    reflexivity.
Qed.

(** X5: [datetime.now()] is called once for every lifelog without a
    truthy start time and never for the others: on a list whose
    lifelogs can all be exported, the run ends normally having read
    the clock as many times as there are such lifelogs, and has left
    the clock itself and the environment as they were. *)
Theorem clock_read_once_per_fallback (w : world) :
  exportable w ->
  snd (export_data w) = Return tt /\
  ticks (fst (export_data w)) = (ticks w + fallback_count (lifelogs w))%nat /\
  clock (fst (export_data w)) = clock w /\
  environ (fst (export_data w)) = environ w.
Proof.
  intros Hsafe.
  destruct (exportable_effects w Hsafe) as [effs He].
  rewrite (export_data_effects w effs He). world_simpl.
  rewrite (effects_ticks _ _ _ _ _ _ He). auto.
Qed.

(** ** Which start times share a name *)

(** The name gives back the fields of the civil time down to the
    second. *)
Lemma strftime_inj padded c1 c2 :
  valid_datetime c1 -> valid_datetime c2 ->
  strftime padded c1 = strftime padded c2 ->
  year c1 = year c2 /\ month c1 = month c2 /\ day c1 = day c2 /\
  hour c1 = hour c2 /\ minute c1 = minute c2 /\ second c1 = second c2.
Proof.
  intros Hv1 Hv2 H.
  rewrite (strftime_eq _ c1 Hv1), (strftime_eq _ c2 Hv2) in H.
  assert (H' : year_text padded (year c1) +:+ clock_part c1 +:+ ""
               = year_text padded (year c2) +:+ clock_part c2 +:+ "").
  { rewrite <- !append_assoc. now rewrite H. }
  apply name_split in H' as (Hy & Hc & _);
    [| apply year_text_digits, Hv1 | apply year_text_digits, Hv2].
  apply year_text_inj in Hy; [| apply Hv1 | apply Hv2].
  apply clock_digits_inj in Hc; [|assumption..].
  tauto.
Qed.

Lemma civil_second_eq c :
  valid_datetime c ->
  civil_second c
  = toordinal c * 86400 + hour c * 3600 + minute c * 60 + second c.
Proof.
  intros (_ & _ & _ & _ & _ & Hus).
  unfold civil_second, to_delta, US_PER_SECOND.
  Z.div_mod_to_equations. lia.
Qed.

(** Two civil times lie in the same second exactly when [strftime]
    prints them alike. *)
Lemma strftime_civil_second padded c1 c2 :
  valid_datetime c1 -> valid_datetime c2 ->
  strftime padded c1 = strftime padded c2 <-> civil_second c1 = civil_second c2.
Proof.
  intros H1 H2. rewrite !civil_second_eq by assumption. split.
  - intros H. apply strftime_inj in H as (Hy & Hm & Hd & Hh & Hmi & Hs);
      try assumption.
    unfold toordinal. rewrite Hy, Hm, Hd, Hh, Hmi, Hs. reflexivity.
  - intros H.
    destruct H1 as (_ & Hd1 & Hh1 & Hmi1 & Hs1 & _).
    destruct H2 as (_ & Hd2 & Hh2 & Hmi2 & Hs2 & _).
    assert (Ho : toordinal c1 = toordinal c2) by lia.
    apply ymd2ord_inj in Ho as (Hy & Hm & Hd); try assumption.
    unfold strftime. rewrite Hy, Hm, Hd.
    replace (hour c2) with (hour c1) by lia.
    replace (minute c2) with (minute c1) by lia.
    replace (second c2) with (second c1) by lia. reflexivity.
Qed.

(** X6: two start times that parse and convert derive the same file
    name exactly when they fall in the same second of Chicago civil
    time, the civil time of each being its instant moved by the offset
    Chicago has at that instant.  Fractions of a second are dropped, and
    two instants an hour apart share a name when the offset changes by
    an hour between them. *)
Theorem same_name_iff_same_second (r1 r2 : lifelog) (st1 st2 c1 c2 : datetime) :
  py_fromisoformat (dict_get r1 "startTime") = inr st1 ->
  py_fromisoformat (dict_get r2 "startTime") = inr st2 ->
  astimezone local_utcoffset st1 chicago_tz = inr c1 ->
  astimezone local_utcoffset st2 chicago_tz = inr c2 ->
  exists (f1 f2 : string) (off1 off2 : Z),
    timestamp_filename r1 = inr f1 /\
    timestamp_filename r2 = inr f2 /\
    zone_offset chicago_tz (to_delta st1 - source_offset st1) = Some off1 /\
    zone_offset chicago_tz (to_delta st2 - source_offset st2) = Some off2 /\
    to_delta c1 = to_delta st1 - source_offset st1 + off1 /\
    to_delta c2 = to_delta st2 - source_offset st2 + off2 /\
    (f1 = f2 <-> civil_second c1 = civil_second c2).
Proof.
  intros Hp1 Hp2 Hc1 Hc2.
  destruct (astimezone_correct _ _ _ _ Hc1) as (src1 & off1 & Hs1 & Hz1 & Hdelta1 & Hv1).
  destruct (astimezone_correct _ _ _ _ Hc2) as (src2 & off2 & Hs2 & Hz2 & Hdelta2 & Hv2).
  assert (Hsrc1 : source_offset st1 = src1)
    by (unfold source_offset, utcoffset_of; now rewrite Hs1).
  assert (Hsrc2 : source_offset st2 = src2)
    by (unfold source_offset, utcoffset_of; now rewrite Hs2).
  rewrite Hsrc1, Hsrc2.
  exists (strftime year_padded c1 +:+ ".md"), (strftime year_padded c2 +:+ ".md"),
    off1, off2.
  split; [apply timestamp_filename_inr; eauto|].
  split; [apply timestamp_filename_inr; eauto|].
  split; [exact Hz1|]. split; [exact Hz2|].
  split; [exact Hdelta1|]. split; [exact Hdelta2|].
  rewrite <- (strftime_civil_second year_padded c1 c2 Hv1 Hv2). split.
  - apply app_inv_tail.
  - intros ->. reflexivity.
Qed.

(** X7: a name of the fallback branch is never the name the timestamp
    branch derives for any lifelog, and the fallback names of two
    different positions are different whatever the clock read: the
    index is part of the name. *)
Theorem fallback_names_apart (now now' : datetime) (i j : nat) (r : lifelog)
    (f : string) :
  fallback_filename now i = inr f ->
  timestamp_filename r <> inr f /\
  (fallback_filename now' j = inr f -> i = j).
Proof.
  exact (fallback_name_apart now now' i j r f).
Qed.

(** ** Where an exception can come from *)

(** A round that returns has printed exactly one line; a round that an
    exception leaves has printed nothing, and is one of the fallback
    branch or one whose handler could not print the start time. *)
Lemma export_record_stdout i r w :
  match snd (export_record i r w) with
  | Return _ => exists l, stdout (fst (export_record i r w)) = (stdout w ++ [l])%list
  | Raised e =>
      stdout (fst (export_record i r w)) = stdout w /\
      (truthy (dict_get r "startTime") = false \/
       (printable (dict_get r "startTime") = false /\ e = UnicodeEncodeError))
  | OutOfFuel => False
  end.
Proof.
  destruct (truthy (dict_get r "startTime")) eqn:Ht.
  - destruct (printable (dict_get r "startTime")) eqn:Hp.
    + destruct (timestamp_filename r) as [e|f] eqn:Hf.
      * rewrite (export_record_error i r w e Ht Hf Hp). world_simpl. eauto.
      * destruct (export_dir w) as [files|] eqn:Hd.
        -- destruct (write_outcome r) as [e|t] eqn:Hm.
           ++ rewrite (export_record_write_error i r w files f e Ht Hf Hm Hd Hp).
              world_simpl. eauto.
           ++ rewrite (export_record_exported i r w files f t Ht Hf Hm Hd).
              world_simpl. eauto.
        -- rewrite (export_record_no_directory i r w f Ht Hf Hd).
           rewrite bind_len, print_line by exact Hp. world_simpl. eauto.
    + destruct (timestamp_filename r) as [e|f] eqn:Hf.
      * rewrite (export_record_error_unprintable i r w e Ht Hf Hp).
        world_simpl. auto.
      * destruct (export_dir w) as [files|] eqn:Hd.
        -- destruct (write_outcome r) as [e|t] eqn:Hm.
           ++ rewrite (export_record_write_error_unprintable i r w files f e
                         Ht Hf Hm Hd Hp).
              world_simpl. auto.
           ++ rewrite (export_record_exported i r w files f t Ht Hf Hm Hd).
              world_simpl. eauto.
        -- rewrite (export_record_no_directory i r w f Ht Hf Hd).
           rewrite bind_len, print_refused by exact Hp. world_simpl. auto.
  - destruct (fallback_filename (clock w (ticks w)) i) as [e|f] eqn:Hf.
    + rewrite (export_record_fallback_no_name i r w e Ht Hf). world_simpl. auto.
    + destruct (export_dir w) as [files|] eqn:Hd.
      * destruct (write_outcome r) as [e|t] eqn:Hm.
        -- rewrite (export_record_fallback_refused i r w files f e Ht Hf Hm Hd).
           world_simpl. auto.
        -- rewrite (export_record_fallback i r w files f t Ht Hf Hm Hd).
           world_simpl. eauto.
      * rewrite (export_record_fallback_no_directory i r w f Ht Hf Hd).
        world_simpl. auto.
Qed.

Lemma run_from_raised rs : forall idx w w' e,
  run_from idx rs w = (w', Raised e) ->
  exists (k : nat) (r : lifelog) (ls : list line),
    rs !! k = Some r /\
    (truthy (dict_get r "startTime") = false \/
     (printable (dict_get r "startTime") = false /\ e = UnicodeEncodeError)) /\
    stdout w' = (stdout w ++ ls)%list /\
    length ls = k.
Proof.
  induction rs as [|r rest IH]; intros idx w w' e; [discriminate|].
  rewrite run_from_cons.
  pose proof (export_record_stdout (S idx) r w) as Hout.
  destruct (export_record (S idx) r w) as [w1 [[]|e1|]]; simpl in Hout.
  - destruct Hout as [l Hl]. intros Hrun.
    destruct (IH _ _ _ _ Hrun) as (k & r' & ls & Hk & Ht & Hs & Hlen).
    exists (S k), r', (l :: ls). split; [exact Hk|]. split; [exact Ht|].
    split; [|simpl; now rewrite Hlen].
    rewrite Hs, Hl, <- app_assoc. reflexivity.
  - destruct Hout as [Hs Ht]. intros [= <- <-].
    exists O, r, []. split; [reflexivity|]. split; [exact Ht|].
    split; [now rewrite app_nil_r | reflexivity].
  - destruct Hout.
Qed.

(** X8: an exception can leave [export_data] only from the round of a
    lifelog without a truthy start time, the branch with no handler, or
    from the handler itself, as [UnicodeEncodeError], when the start
    time is a string that cannot be printed.  The lifelogs before that
    one have each had their line, that lifelog and the ones after it
    none: the number of progress lines printed is the position of the
    lifelog at which the export stopped. *)
Theorem export_raises_where (w w' : world) (e : exn) :
  export_data w = (w', Raised e) ->
  exists (k : nat) (r : lifelog) (ls : list line),
    lifelogs w !! k = Some r /\
    (truthy (dict_get r "startTime") = false \/
     (printable (dict_get r "startTime") = false /\ e = UnicodeEncodeError)) /\
    stdout w' = (stdout w ++ header_lines (lifelogs w) ++ ls)%list /\
    length ls = k.
Proof.
  rewrite export_data_run. intros Hrun.
  destruct (run_from_raised _ _ _ _ _ Hrun) as (k & r & ls & Hk & Ht & Hs & Hlen).
  exists k, r, ls. split; [exact Hk|]. split; [exact Ht|].
  split; [|exact Hlen]. rewrite Hs. world_simpl. now rewrite <- app_assoc.
Qed.

(** ** Start times that are not truthy *)

(** X9: a [startTime] that is present but not truthy, that is [null],
    [false], [0], the empty string, list or object, is handled exactly
    as if the key were missing: the parser is not called, and the clock
    is read once, whatever happens to the round afterwards. *)
Theorem falsy_start_time_is_missing (i : nat) (r : lifelog) (w : world) (v : pyval) :
  r !! "startTime" = Some v ->
  truthy v = false ->
  export_record i r w = export_record i (delete "startTime" r) w /\
  ticks (fst (export_record i r w)) = S (ticks w).
Proof.
  intros Hv Hfalse.
  assert (Ht : truthy (dict_get r "startTime") = false)
    by (unfold dict_get; rewrite Hv; exact Hfalse).
  assert (Ht' : truthy (dict_get (delete "startTime" r) "startTime") = false)
    by (unfold dict_get; rewrite lookup_delete_eq; reflexivity).
  split.
  - unfold export_record. rewrite Ht, Ht'.
    replace (dict_get_default (delete "startTime" r) "markdown" (PStr ""))
      with (dict_get_default r "markdown" (PStr ""))
      by (unfold dict_get_default; now rewrite lookup_delete_ne).
    reflexivity.
  - destruct (fallback_filename (clock w (ticks w)) i) as [e|f] eqn:Hf.
    + now rewrite (export_record_fallback_no_name i r w e Ht Hf).
    + destruct (export_dir w) as [files|] eqn:Hd.
      * destruct (write_outcome r) as [e|t] eqn:Hm.
        -- now rewrite (export_record_fallback_refused i r w files f e Ht Hf Hm Hd).
        -- now rewrite (export_record_fallback i r w files f t Ht Hf Hm Hd).
      * now rewrite (export_record_fallback_no_directory i r w f Ht Hf Hd).
Qed.

(** ** [main] *)

Lemma main_eq w :
  main w =
  match get_lifelogs (environ w !! "LIMITLESS_API_KEY") "asc" None
          (set_stdout (stdout w ++ [LFetching]) w) with
  | (w1, Return fetched) =>
      match export_data (set_lifelogs fetched w1) with
      | (w2, Return _) => (set_stdout (stdout w2 ++ [LComplete]) w2, Return tt)
      | (w2, Raised e) => (w2, Raised e)
      | (w2, OutOfFuel) => (w2, OutOfFuel)
      end
  | (w1, Raised e) => (w1, Raised e)
  | (w1, OutOfFuel) => (w1, OutOfFuel)
  end.
Proof.
  unfold main. rewrite bind_print by reflexivity.
  unfold io_bind at 1. unfold getenv at 1. world_simpl. cbv beta iota.
  unfold io_bind at 1.
  destruct (get_lifelogs _ _ _ _) as [w1 [fetched|e|]]; reflexivity.
Qed.

(** X10: [main] has no handler of its own.  It ends with an exception
    exactly when [get_lifelogs] raises it, in which case nothing is
    exported and the state is the one the failed call left, or when
    [export_data] raises it on the list fetched; in neither case is
    "Export complete!" printed. *)
Theorem main_fails_with_fetch_or_export (w w' : world) (e : exn) :
  main w = (w', Raised e) <->
  get_lifelogs (environ w !! "LIMITLESS_API_KEY") "asc" None
    (set_stdout (stdout w ++ [LFetching]) w) = (w', Raised e) \/
  exists (w1 : world) (fetched : list lifelog),
    get_lifelogs (environ w !! "LIMITLESS_API_KEY") "asc" None
      (set_stdout (stdout w ++ [LFetching]) w) = (w1, Return fetched) /\
    export_data (set_lifelogs fetched w1) = (w', Raised e).
Proof.
  rewrite main_eq. split.
  - destruct (get_lifelogs _ _ _ _) as [w1 [fetched|e1|]].
    + destruct (export_data _) as [w2 [[]|e2|]] eqn:Hx; try discriminate.
      intros [= <- <-]. right. eauto.
    + intros [= <- <-]. left. reflexivity.
    + discriminate.
  - intros [->|(w1 & fetched & -> & ->)]; reflexivity.
Qed.

(** X11: [main] asks for the key found in the environment, ascending
    order and no limit, and exports the list it is given.  When the
    call returns a list whose lifelogs can all be exported, [main] ends
    normally: after what was printed until the fetch returned come the
    header for that list, one line per lifelog fetched and, last,
    "Export complete!"; every clock reading was made for a lifelog
    without a truthy start time. *)
Theorem main_exports_fetched (w w1 : world) (fetched : list lifelog) :
  get_lifelogs (environ w !! "LIMITLESS_API_KEY") "asc" None
    (set_stdout (stdout w ++ [LFetching]) w) = (w1, Return fetched) ->
  exportable (set_lifelogs fetched w1) ->
  exists (w' : world) (ls : list line),
    main w = (w', Return tt) /\
    lifelogs w' = fetched /\
    stdout w' = (stdout w1 ++ header_lines fetched ++ ls ++ [LComplete])%list /\
    length ls = length fetched /\
    is_Some (export_dir w') /\
    ticks w' = (ticks w1 + fallback_count fetched)%nat.
Proof.
  intros Hfetch Hsafe.
  destruct (exportable_effects _ Hsafe) as [effs He].
  rewrite main_eq, Hfetch.
  rewrite (export_data_effects (set_lifelogs fetched w1) effs He).
  world_simpl. eexists _, (effect_line <$> effs). split; [reflexivity|].
  world_simpl. split; [reflexivity|].
  split; [now rewrite <- !app_assoc|].
  split; [rewrite length_fmap; exact (effects_length _ _ _ _ _ _ He)|].
  split; [eauto|].
  rewrite (effects_ticks _ _ _ _ _ _ He). reflexivity.
Qed.

(** ** The debugging block *)

Lemma structure_lines_length copy : forall i,
  length (structure_lines i copy) = (2 * length copy)%nat.
Proof.
  induction copy as [|x rest IH]; intros i; [reflexivity|].
  cbn [structure_lines length]. rewrite IH. lia.
Qed.

Lemma structure_lines_lookup copy : forall i k r,
  copy !! k = Some r ->
  structure_lines i copy !! (2 * k)%nat = Some (LStructure (i + k)) /\
  structure_lines i copy !! (S (2 * k)) = Some (LJson r).
Proof.
  induction copy as [|x rest IH]; intros i k r Hk; [discriminate|].
  destruct k as [|k].
  - injection Hk as ->. rewrite Nat.add_0_r. split; reflexivity.
  - destruct (IH (S i) k r Hk) as [H1 H2].
    replace (2 * S k)%nat with (S (S (2 * k))) by lia.
    replace (i + S k)%nat with (S i + k)%nat by lia.
    split; [exact H1 | exact H2].
Qed.

(** X12: the debugging block only prints.  For an empty list it prints
    nothing; otherwise it prints the keys of the first lifelog and
    then, for each of the first three lifelogs and for no other, a
    heading with its 1-based position followed by the lifelog itself:
    one line plus two for each of at most three lifelogs. *)
Theorem structure_dump_first_three (w : world) :
  exists ls : list line,
    print_structure w = (set_stdout (stdout w ++ ls) w, Return tt) /\
    length ls = match lifelogs w with
                | [] => O
                | _ => (1 + 2 * Nat.min 3 (length (lifelogs w)))%nat
                end /\
    (forall first, lifelogs w !! O = Some first -> ls !! O = Some (LFirstKeys first)) /\
    (forall k r, (k < 3)%nat -> lifelogs w !! k = Some r ->
       ls !! (1 + 2 * k)%nat = Some (LStructure (S k)) /\
       ls !! (2 + 2 * k)%nat = Some (LJson r)).
Proof.
  rewrite print_structure_lines.
  eexists. split; [reflexivity|].
  destruct (lifelogs w) as [|first rest] eqn:Hl.
  - split; [reflexivity|]. split; intros; discriminate.
  - split.
    { cbn [length]. rewrite structure_lines_length, length_take. reflexivity. }
    split.
    { intros first' [= <-]. reflexivity. }
    intros k r Hk Hr.
    assert (Htake : take 3 (first :: rest) !! k = Some r)
      by (rewrite lookup_take_lt by exact Hk; exact Hr).
    destruct (structure_lines_lookup _ 1 k r Htake) as [H1 H2].
    split; [exact H1 | exact H2].
Qed.

End Further.

(** * The further properties at work on concrete data *)


(** The other case of the same theorem: a start time with a surrogate
    for its separator parses, the write of [null] fails, and the
    handler cannot print the start time.  The export ends with
    [UnicodeEncodeError], the file left empty and no line printed. *)
Lemma unprintable_start_time_round :
  let w := fresh_world [surrogate_separator] eight_pm in
  let w' := fst (@export_data (test_platform []) w) in
  @timestamp_filename (test_platform []) surrogate_separator
  = inr "2025-03-18-15-41-44.md" /\
  printable (dict_get surrogate_separator "startTime") = false /\
  snd (@export_data (test_platform []) w) = Raised UnicodeEncodeError /\
  export_dir w' = Some {[ "2025-03-18-15-41-44.md" := "" ]} /\
  stdout w' = header_lines (lifelogs w).
Proof. by_evaluation. Qed.

Lemma fallback_write_error_aborts_witness :
  let w := fresh_world [scenario_A; no_time_no_text; no_time] eight_pm in
  let c := mk_datetime 2025 3 18 15 0 0 0 (Some (-18000000000)) in
  let effs := [(Some ("2025-03-18-15-41-44.md", "Hello"),
                LExported 1 3 "2025-03-18-15-41-44.md", O)] in
  @export_data (test_platform []) w =
    (mk_world (lifelogs w)
       (Some (<[strftime false c +:+ "-" +:+ pretty (S (length [scenario_A])) +:+ ".md" := ""]>
                (foldl write_file (default ∅ (export_dir w)) (effect_write <$> effs))))
       (stdout w ++ header_lines (lifelogs w) ++ (effect_line <$> effs))
       (clock w) (S (ticks w + sum_list (effect_ticks <$> effs))) (environ w),
     Raised TypeError).
Proof.
  cbv zeta.
  apply (@fallback_write_error_aborts (test_platform [])
           (fresh_world [scenario_A; no_time_no_text; no_time] eight_pm)
           [scenario_A] [no_time] no_time_no_text
           [(Some ("2025-03-18-15-41-44.md", "Hello"),
             LExported 1 3 "2025-03-18-15-41-44.md", O)]
           (mk_datetime 2025 3 18 15 0 0 0 (Some (-18000000000))) PNone).
  - reflexivity.
  - by_evaluation.
  - by_evaluation.
  - by_evaluation.
  - intros s H. discriminate H.
  - by_evaluation.
Defined.

Lemma last_lifelog_wins_witness :
  exists (w' : world) (files' : gmap string string),
    @export_data (test_platform []) (fresh_world [scenario_A; scenario_A_utc] eight_pm)
      = (w', Return tt) /\
    export_dir w' = Some files' /\
    files' !! "2025-03-18-15-41-44.md"
    = Some (match write_outcome scenario_A_utc with inr t => t | inl _ => "" end).
Proof.
  apply (@last_lifelog_wins (test_platform [])
           (fresh_world [scenario_A; scenario_A_utc] eight_pm) 1 scenario_A_utc
           "2025-03-18-15-41-44.md").
  - split; [|split].
    + intros r Hr _. apply list_elem_of_In in Hr. simpl in Hr.
      destruct Hr as [<-|[<-|[]]]; by_evaluation.
    + intros r Hr Ht. apply list_elem_of_In in Hr. simpl in Hr.
      destruct Hr as [<-|[<-|[]]]; vm_compute in Ht; discriminate Ht.
    + intros t Ht. simpl in Ht.
      destruct t as [|[|t]]; try lia; eexists; vm_compute; reflexivity.
  - reflexivity.
  - by_evaluation.
  - by_evaluation.
  - intros q' r' Hlt Hq'. destruct q' as [|[|q']]; try lia. discriminate Hq'.
Defined.

Lemma clock_read_once_per_fallback_witness :
  let w := fresh_world [no_time; scenario_A; no_time] eight_pm in
  snd (@export_data (test_platform []) w) = Return tt /\
  ticks (fst (@export_data (test_platform []) w))
  = (ticks w + fallback_count (lifelogs w))%nat /\
  clock (fst (@export_data (test_platform []) w)) = clock w /\
  environ (fst (@export_data (test_platform []) w)) = environ w.
Proof.
  cbv zeta.
  apply (@clock_read_once_per_fallback (test_platform [])
           (fresh_world [no_time; scenario_A; no_time] eight_pm)).
  split; [|split].
  - intros r Hr _. apply list_elem_of_In in Hr. simpl in Hr.
    destruct Hr as [<-|[<-|[<-|[]]]]; by_evaluation.
  - intros r Hr Ht. apply list_elem_of_In in Hr. simpl in Hr.
    destruct Hr as [<-|[<-|[<-|[]]]].
    + exists "No time". by_evaluation.
    + vm_compute in Ht. discriminate Ht.
    + exists "No time". by_evaluation.
  - intros t Ht. simpl in Ht.
    destruct t as [|[|[|t]]]; try lia; eexists; vm_compute; reflexivity.
Defined.

Lemma same_name_iff_same_second_witness :
  let st1 := mk_datetime 2025 11 2 1 30 0 0 (Some (-18000000000)) in
  let st2 := mk_datetime 2025 11 2 1 30 0 0 (Some (-21600000000)) in
  let c1 := mk_datetime 2025 11 2 1 30 0 0 (Some (-18000000000)) in
  let c2 := mk_datetime 2025 11 2 1 30 0 0 (Some (-21600000000)) in
  exists (f1 f2 : string) (off1 off2 : Z),
    @timestamp_filename (test_platform []) before_fold = inr f1 /\
    @timestamp_filename (test_platform []) after_fold = inr f2 /\
    zone_offset America_Chicago
      (to_delta st1 - @source_offset (test_platform []) st1) = Some off1 /\
    zone_offset America_Chicago
      (to_delta st2 - @source_offset (test_platform []) st2) = Some off2 /\
    to_delta c1 = to_delta st1 - @source_offset (test_platform []) st1 + off1 /\
    to_delta c2 = to_delta st2 - @source_offset (test_platform []) st2 + off2 /\
    (f1 = f2 <-> civil_second c1 = civil_second c2).
Proof.
  cbv zeta.
  apply (@same_name_iff_same_second (test_platform []) before_fold after_fold
           (mk_datetime 2025 11 2 1 30 0 0 (Some (-18000000000)))
           (mk_datetime 2025 11 2 1 30 0 0 (Some (-21600000000)))
           (mk_datetime 2025 11 2 1 30 0 0 (Some (-18000000000)))
           (mk_datetime 2025 11 2 1 30 0 0 (Some (-21600000000))));
    by_evaluation.
Defined.

Lemma fallback_names_apart_witness :
  @timestamp_filename (test_platform []) scenario_A <> inr "2025-03-18-15-00-00-1.md" /\
  (@fallback_filename (test_platform []) eight_pm 2 = inr "2025-03-18-15-00-00-1.md" ->
   1%nat = 2%nat).
Proof.
  apply (@fallback_names_apart (test_platform []) eight_pm eight_pm 1 2 scenario_A
           "2025-03-18-15-00-00-1.md").
  by_evaluation.
Defined.

Lemma export_raises_where_witness :
  let w := fresh_world [scenario_A; no_time_no_text; no_time] eight_pm in
  exists (k : nat) (r : lifelog) (ls : list line),
    lifelogs w !! k = Some r /\
    (truthy (dict_get r "startTime") = false \/
     (printable (dict_get r "startTime") = false /\ TypeError = UnicodeEncodeError)) /\
    stdout (fst (@export_data (test_platform []) w))
    = (stdout w ++ header_lines (lifelogs w) ++ ls)%list /\
    length ls = k.
Proof.
  cbv zeta.
  apply (@export_raises_where (test_platform [])
           (fresh_world [scenario_A; no_time_no_text; no_time] eight_pm)
           (fst (@export_data (test_platform [])
                   (fresh_world [scenario_A; no_time_no_text; no_time] eight_pm)))
           TypeError).
  etransitivity; [apply surjective_pairing|]. f_equal.
Defined.

Lemma falsy_start_time_is_missing_witness :
  let w := ready_world [null_time] eight_pm in
  @export_record (test_platform []) 1 null_time w
  = @export_record (test_platform []) 1 (delete "startTime" null_time) w /\
  ticks (fst (@export_record (test_platform []) 1 null_time w)) = S (ticks w).
Proof.
  cbv zeta.
  apply (@falsy_start_time_is_missing (test_platform []) 1 null_time
           (ready_world [null_time] eight_pm) PNone);
    by_evaluation.
Defined.

Lemma main_fails_with_fetch_or_export_witness :
  let w := fresh_world [] eight_pm in
  @main (offline_platform ValueError) w
  = (set_stdout (stdout w ++ [LFetching]) w, Raised ValueError).
Proof.
  cbv zeta.
  apply (@main_fails_with_fetch_or_export (offline_platform ValueError)
           (fresh_world [] eight_pm)
           (set_stdout (stdout (fresh_world [] eight_pm) ++ [LFetching])
              (fresh_world [] eight_pm))
           ValueError).
  left. reflexivity.
Defined.

Lemma main_exports_fetched_witness :
  let fetched := [scenario_A; no_time] in
  let w := fresh_world [] eight_pm in
  let w1 := set_stdout (stdout w ++ [LFetching]) w in
  exists (w' : world) (ls : list line),
    @main (test_platform fetched) w = (w', Return tt) /\
    lifelogs w' = fetched /\
    stdout w' = (stdout w1 ++ header_lines fetched ++ ls ++ [LComplete])%list /\
    length ls = length fetched /\
    is_Some (export_dir w') /\
    ticks w' = (ticks w1 + fallback_count fetched)%nat.
Proof.
  cbv zeta.
  apply (@main_exports_fetched (test_platform [scenario_A; no_time])
           (fresh_world [] eight_pm)
           (set_stdout (stdout (fresh_world [] eight_pm) ++ [LFetching])
              (fresh_world [] eight_pm))
           [scenario_A; no_time]).
  - reflexivity.
  - split; [|split].
    + intros r Hr _. apply list_elem_of_In in Hr. simpl in Hr.
      destruct Hr as [<-|[<-|[]]]; by_evaluation.
    + intros r Hr Ht. apply list_elem_of_In in Hr. simpl in Hr.
      destruct Hr as [<-|[<-|[]]].
      * vm_compute in Ht. discriminate Ht.
      * exists "No time". by_evaluation.
    + intros t Ht. simpl in Ht.
      destruct t as [|[|t]]; try lia; eexists; vm_compute; reflexivity.
Defined.
